(** * Quiz builder front end: the quiz-authoring form and the API helpers

    A shallow embedding of [pages/create.tsx] (the Zod schema
    [createQuizSchema], the option and type handlers of [CreateQuizPage],
    the payload mapping of [onSubmit]) and of [services/api.ts], followed by
    the properties of the written specification that concern them. *)

From Stdlib Require Import NArith Ascii.
From stdpp Require Import base option list strings.

(** ** JavaScript strings

    A JavaScript string is a sequence of UTF-16 code units.  String literals
    of the source are ASCII and are written [js "..."]. *)

Definition jsstring := list N.

Definition js (s : string) : jsstring := N_of_ascii <$> String.list_ascii_of_string s.

(** [WhiteSpace] and [LineTerminator] of ECMAScript, the code units that
    [String.prototype.trim] strips; all of them lie in the basic plane. *)
Definition isWhiteSpace (c : N) : bool :=
  ((c =? 0x9) || (c =? 0xA) || (c =? 0xB) || (c =? 0xC) || (c =? 0xD)
   || (c =? 0x20) || (c =? 0xA0) || (c =? 0x1680)
   || ((0x2000 <=? c) && (c <=? 0x200A))
   || (c =? 0x2028) || (c =? 0x2029) || (c =? 0x202F) || (c =? 0x205F)
   || (c =? 0x3000) || (c =? 0xFEFF))%N.

Fixpoint trimStart (s : jsstring) : jsstring :=
  match s with
  | c :: s' => if isWhiteSpace c then trimStart s' else s
  | [] => []
  end.

Definition trimEnd (s : jsstring) : jsstring := rev (trimStart (rev s)).

(** [s.trim()] *)
Definition trim (s : jsstring) : jsstring := trimEnd (trimStart s).

(** ** Array callbacks that receive the index *)

Fixpoint filter_from {A} (p : A → nat → bool) (start : nat) (l : list A) : list A :=
  match l with
  | [] => []
  | x :: l' =>
      if p x start then x :: filter_from p (S start) l'
      else filter_from p (S start) l'
  end.

(** [l.filter((x, idx) => p(x, idx))] *)
Definition filter_idx {A} (p : A → nat → bool) (l : list A) : list A :=
  filter_from p 0 l.

(** [l.some(Boolean)] on an array of booleans *)
Definition some_Boolean (l : list bool) : bool := existsb (λ b, b) l.

(** ** The form data: [CreateQuizForm = z.infer<typeof createQuizSchema>] *)

(** [questionTypes = ['boolean', 'input', 'checkbox']] *)
Inductive QuestionType := boolean | input | checkbox.

(** The value of the type select: one of [questionTypes], or the [""] of
    its entry "Select type", which the handler receives under the cast
    [as QuestionType]. *)
Inductive TypeValue := chosen (t : QuestionType) | not_chosen.
Coercion chosen : QuestionType >-> TypeValue.

(** The two strings of [z.enum(['true', 'false'])]. *)
Inductive TrueFalse := str_true | str_false.

(** One element of [questions]; an optional field that is [undefined] is
    [None]. *)
Record Question := mkQuestion {
  text : jsstring;
  type : TypeValue;
  options : option (list jsstring);
  correctBoolean : option TrueFalse;
  correctInput : option jsstring;
  correctCheckbox : option (list bool);
}.

Record CreateQuizForm := mkForm {
  title : jsstring;
  questions : list Question;
}.

Global Instance QuestionType_eq_dec : EqDecision QuestionType.
Proof. solve_decision. Defined.
Global Instance TypeValue_eq_dec : EqDecision TypeValue.
Proof. solve_decision. Defined.
Global Instance TrueFalse_eq_dec : EqDecision TrueFalse.
Proof. solve_decision. Defined.
Global Instance Question_eq_dec : EqDecision Question.
Proof. solve_decision. Defined.
Global Instance CreateQuizForm_eq_dec : EqDecision CreateQuizForm.
Proof. solve_decision. Defined.

(** [defaultQuestion] *)
Definition defaultQuestion : Question :=
  {| text := js ""; type := input; options := None; correctBoolean := None;
     correctInput := Some (js ""); correctCheckbox := None |}.

(** [defaultValues] of [useForm] *)
Definition defaultValues : CreateQuizForm :=
  {| title := js ""; questions := [defaultQuestion] |}.

(** ** Validation: [questionSchema] and [createQuizSchema]

    A Zod issue carries the path of the field it is about and a message.
    Parsing collects the issues of every field; a failed [min] check marks
    the value dirty without aborting, so the refinement of [superRefine]
    still runs on the parsed object. *)

Inductive PathSegment := Key (k : string) | Idx (i : nat).

Global Instance PathSegment_eq_dec : EqDecision PathSegment.
Proof. solve_decision. Defined.

Definition Path := list PathSegment.

Record ZodIssue := mkIssue { issue_path : Path; issue_message : string }.

Global Instance ZodIssue_eq_dec : EqDecision ZodIssue.
Proof. solve_decision. Defined.

(** An issue found below the field or index [s] is reported under [s]. *)
Definition under (s : PathSegment) (i : ZodIssue) : ZodIssue :=
  {| issue_path := s :: issue_path i; issue_message := issue_message i |}.

(** [z.string().min(1, message)] *)
Definition string_min1 (message : string) (s : jsstring) : list ZodIssue :=
  if length s <? 1 then [mkIssue [] message] else [].

(** [z.string().trim().min(1, message)]: the parsed value is the trimmed
    string and the check is made on it. *)
Definition string_trim_min1 (message : string) (s : jsstring)
  : list ZodIssue * jsstring :=
  (string_min1 message (trim s), trim s).

(** [z.array(z.string().trim().min(1, 'Option cannot be empty'))] *)
Definition options_parse (opts : list jsstring) : list ZodIssue * list jsstring :=
  (mjoin (imap (λ j o, under (Idx j) <$>
                         (string_trim_min1 "Option cannot be empty" o).1) opts),
   (λ o, (string_trim_min1 "Option cannot be empty" o).2) <$> opts).

(** The callback of [superRefine]. *)
Definition superRefine (question : Question) : list ZodIssue :=
  (if decide (type question = boolean) then
     match correctBoolean question with
     | None => [mkIssue [Key "correctBoolean"] "Select the correct answer"]
     | Some _ => []
     end
   else [])
  ++
  (if decide (type question = input) then
     match correctInput question with
     | Some (c :: s) =>
         if length (trim (c :: s)) =? 0
         then [mkIssue [Key "correctInput"] "Provide the expected answer"]
         else []
     | _ => [mkIssue [Key "correctInput"] "Provide the expected answer"]
     end
   else [])
  ++
  (if decide (type question = checkbox) then
     (match options question with
      | Some (o :: os) => []
      | _ => [mkIssue [Key "options"]
                "Add at least one option for checkbox questions"]
      end)
     ++
     (match correctCheckbox question with
      | Some flags =>
          if negb (length flags =? length (default [] (options question)))
          then [mkIssue [Key "correctCheckbox"] "Mark which options are correct"]
          else if negb (some_Boolean flags)
          then [mkIssue [Key "correctCheckbox"]
                  "Select at least one correct option"]
          else []
      | None => [mkIssue [Key "correctCheckbox"] "Mark which options are correct"]
      end)
   else []).

(** The message of Zod for a value outside an enum; the schema sets none,
    the wording is Zod's, and nothing below depends on it. *)
Definition invalid_enum_value : string :=
  "Invalid enum value. Expected 'boolean' | 'input' | 'checkbox', received ''".

(** [z.enum(questionTypes)] *)
Definition enum_questionTypes (v : TypeValue) : list ZodIssue :=
  match v with
  | chosen _ => []
  | not_chosen => [mkIssue [] invalid_enum_value]
  end.

(** [questionSchema]: the object fields in the order of the shape, then the
    refinement on the parsed object.  [text], [type] and [options] carry
    checks; the other fields are accepted as they are typed.  A value
    outside the enum aborts the parse of the object, and the refinement is
    then not run; the second component is the parsed object, which there is
    when the parse is not aborted. *)
Definition questionSchema_parse (q : Question) : list ZodIssue * Question :=
  let options_result :=
    match options q with
    | Some opts => let r := options_parse opts in (r.1, Some r.2)
    | None => ([], None)
    end in
  let parsed :=
    {| text := text q; type := type q; options := options_result.2;
       correctBoolean := correctBoolean q; correctInput := correctInput q;
       correctCheckbox := correctCheckbox q |} in
  ((under (Key "text") <$> string_min1 "Question text is required" (text q))
   ++ (under (Key "type") <$> enum_questionTypes (type q))
   ++ (under (Key "options") <$> options_result.1)
   ++ match type q with
      | chosen _ => superRefine parsed
      | not_chosen => []
      end,
   parsed).

(** [z.array(questionSchema).min(1, ...)] *)
Definition questions_parse (qs : list Question) : list ZodIssue * list Question :=
  ((if length qs <? 1
    then [mkIssue [] "Add at least one question to the quiz"] else [])
   ++ mjoin (imap (λ i q, under (Idx i) <$> (questionSchema_parse q).1) qs),
   (λ q, (questionSchema_parse q).2) <$> qs).

(** [createQuizSchema] *)
Definition createQuizSchema_parse (data : CreateQuizForm)
  : list ZodIssue * CreateQuizForm :=
  let qr := questions_parse (questions data) in
  ((under (Key "title") <$> string_min1 "Title is required" (title data))
   ++ (under (Key "questions") <$> qr.1),
   {| title := title data; questions := qr.2 |}).

(** The issues the resolver reports for a draft. *)
Definition validate (data : CreateQuizForm) : list ZodIssue :=
  (createQuizSchema_parse data).1.

(** [createQuizSchema.safeParse]: the parsed data when there is no issue. *)
Definition safeParse (data : CreateQuizForm) : list ZodIssue + CreateQuizForm :=
  match validate data with
  | [] => inr (createQuizSchema_parse data).2
  | issues => inl issues
  end.

(** ** The submission payload ([services/api.ts])

    [QuizQuestionPayload] is a union tagged by [type]; the constructor is the
    tag.  [UntypedQuizQuestionPayload] is no member of the union: it is the
    object the last branch of [onSubmit] builds, [type: question.type] with
    the fields of a checkbox record, for a question whose type is [""]. *)

Inductive QuizQuestionPayload :=
  | BooleanQuizQuestionPayload
      (p_text : jsstring) (p_options : option (list jsstring))
      (correctAnswer : bool)
  | InputQuizQuestionPayload (p_text : jsstring) (correctAnswer : jsstring)
  | CheckboxQuizQuestionPayload
      (p_text : jsstring) (p_options : list jsstring)
      (correctAnswer : list jsstring)
  | UntypedQuizQuestionPayload
      (p_text : jsstring) (p_options : list jsstring)
      (correctAnswer : list jsstring).

Record CreateQuizPayload := mkPayload {
  payload_title : jsstring;
  payload_questions : list QuizQuestionPayload;
}.

Global Instance QuizQuestionPayload_eq_dec : EqDecision QuizQuestionPayload.
Proof. solve_decision. Defined.
Global Instance CreateQuizPayload_eq_dec : EqDecision CreateQuizPayload.
Proof. solve_decision. Defined.

Definition payload_text (p : QuizQuestionPayload) : jsstring :=
  match p with
  | BooleanQuizQuestionPayload t _ _ => t
  | InputQuizQuestionPayload t _ => t
  | CheckboxQuizQuestionPayload t _ _ => t
  | UntypedQuizQuestionPayload t _ _ => t
  end.

(** ** [onSubmit]: from the form data to the payload *)

(** The callback of [data.questions.map]. *)
Definition questionPayload (question : Question) : QuizQuestionPayload :=
  match type question with
  | chosen boolean =>
      BooleanQuizQuestionPayload (text question) (Some [js "True"; js "False"])
        (bool_decide (correctBoolean question = Some str_true))
  | chosen input =>
      InputQuizQuestionPayload (text question)
        (match correctInput question with
         | Some s => trim s
         | None => js ""
         end)
  | other =>
      let options := trim <$> default [] (options question) in
      let correctCheckbox := default [] (correctCheckbox question) in
      let correctAnswer :=
        filter_idx (λ _ idx, default false (correctCheckbox !! idx)) options in
      match other with
      | not_chosen =>
          UntypedQuizQuestionPayload (text question) options correctAnswer
      | chosen _ =>
          CheckboxQuizQuestionPayload (text question) options correctAnswer
      end
  end.

(** The argument [onSubmit] hands to [createQuiz]. *)
Definition onSubmit_payload (data : CreateQuizForm) : CreateQuizPayload :=
  let questionsPayload := questionPayload <$> questions data in
  {| payload_title := title data; payload_questions := questionsPayload |}.

(** [handleSubmit(onSubmit)] with [resolver: zodResolver(createQuizSchema)]:
    the form values are parsed, and [onSubmit] is called, with the parsed
    data, only when the schema reports no issue. *)
Definition handleSubmit (values : CreateQuizForm) : option CreateQuizPayload :=
  match safeParse values with
  | inr data => Some (onSubmit_payload data)
  | inl _ => None
  end.

(** ** The handlers of [CreateQuizPage]

    The form values are the state; [setValue] writes one field of the
    question at an index.  Every handler is attached to a control rendered
    for an element of [fields] (and of its options), so the indices it is
    called with are in range; out of range the model leaves the list as it
    is. *)

Definition setValue_type (i : nat) (v : TypeValue) (d : CreateQuizForm)
  : CreateQuizForm :=
  {| title := title d;
     questions := alter (λ q, mkQuestion (text q) v (options q) (correctBoolean q)
                                (correctInput q) (correctCheckbox q))
                    i (questions d) |}.

Definition setValue_text (i : nat) (v : jsstring) (d : CreateQuizForm)
  : CreateQuizForm :=
  {| title := title d;
     questions := alter (λ q, mkQuestion v (type q) (options q) (correctBoolean q)
                                (correctInput q) (correctCheckbox q))
                    i (questions d) |}.

Definition setValue_options (i : nat) (v : option (list jsstring))
    (d : CreateQuizForm) : CreateQuizForm :=
  {| title := title d;
     questions := alter (λ q, mkQuestion (text q) (type q) v (correctBoolean q)
                                (correctInput q) (correctCheckbox q))
                    i (questions d) |}.

Definition setValue_correctBoolean (i : nat) (v : option TrueFalse)
    (d : CreateQuizForm) : CreateQuizForm :=
  {| title := title d;
     questions := alter (λ q, mkQuestion (text q) (type q) (options q) v
                                (correctInput q) (correctCheckbox q))
                    i (questions d) |}.

Definition setValue_correctInput (i : nat) (v : option jsstring)
    (d : CreateQuizForm) : CreateQuizForm :=
  {| title := title d;
     questions := alter (λ q, mkQuestion (text q) (type q) (options q)
                                (correctBoolean q) v (correctCheckbox q))
                    i (questions d) |}.

Definition setValue_correctCheckbox (i : nat) (v : option (list bool))
    (d : CreateQuizForm) : CreateQuizForm :=
  {| title := title d;
     questions := alter (λ q, mkQuestion (text q) (type q) (options q)
                                (correctBoolean q) (correctInput q) v)
                    i (questions d) |}.

(** [questions?.[questionIndex]?.options ?? []] *)
Definition options_at (d : CreateQuizForm) (questionIndex : nat) : list jsstring :=
  default [] (questions d !! questionIndex ≫= options).

(** [questions?.[questionIndex]?.correctCheckbox ?? []] *)
Definition correctCheckbox_at (d : CreateQuizForm) (questionIndex : nat)
  : list bool :=
  default [] (questions d !! questionIndex ≫= correctCheckbox).

(** [nextOptions.length ? nextOptions : undefined] *)
Definition nonempty_or_undefined {A} (l : list A) : option (list A) :=
  match l with [] => None | _ => Some l end.

Definition addQuestion (d : CreateQuizForm) : CreateQuizForm :=
  {| title := title d; questions := questions d ++ [defaultQuestion] |}.

Definition addOption (questionIndex : nat) (d : CreateQuizForm) : CreateQuizForm :=
  let currentOptions := options_at d questionIndex in
  let currentCorrect := correctCheckbox_at d questionIndex in
  setValue_correctCheckbox questionIndex (Some (currentCorrect ++ [false]))
    (setValue_options questionIndex (Some (currentOptions ++ [js ""])) d).

Definition removeOption (questionIndex optionIndex : nat) (d : CreateQuizForm)
  : CreateQuizForm :=
  let currentOptions := options_at d questionIndex in
  let currentCorrect := correctCheckbox_at d questionIndex in
  let nextOptions :=
    filter_idx (λ _ idx, negb (idx =? optionIndex)) currentOptions in
  let nextCorrect :=
    filter_idx (λ _ idx, negb (idx =? optionIndex)) currentCorrect in
  setValue_correctCheckbox questionIndex (nonempty_or_undefined nextCorrect)
    (setValue_options questionIndex (nonempty_or_undefined nextOptions) d).

Definition handleTypeChange (questionIndex : nat) (newType : TypeValue)
    (d : CreateQuizForm) : CreateQuizForm :=
  match newType with
  | chosen boolean =>
      setValue_correctBoolean questionIndex (Some str_true)
        (setValue_correctInput questionIndex None
           (setValue_correctCheckbox questionIndex None
              (setValue_options questionIndex None d)))
  | chosen input =>
      setValue_correctInput questionIndex (Some (js ""))
        (setValue_correctBoolean questionIndex None
           (setValue_correctCheckbox questionIndex None
              (setValue_options questionIndex None d)))
  | chosen checkbox =>
      let existingOptions := options_at d questionIndex in
      let existingCorrect := correctCheckbox_at d questionIndex in
      let options :=
        if 0 <? length existingOptions then existingOptions else [js ""] in
      let correctFlags :=
        imap (λ idx _, default false (existingCorrect !! idx)) options in
      setValue_correctInput questionIndex None
        (setValue_correctBoolean questionIndex None
           (setValue_correctCheckbox questionIndex (Some correctFlags)
              (setValue_options questionIndex (Some options) d)))
  | not_chosen => d
  end.

(** The type [select]: the registered field takes the chosen value and the
    [onChange] handler then runs. *)
Definition change_type (questionIndex : nat) (newType : TypeValue)
    (d : CreateQuizForm) : CreateQuizForm :=
  handleTypeChange questionIndex newType (setValue_type questionIndex newType d).

(** The Remove button of a question: [onClick={() => remove(questionIndex)}],
    [disabled={fields.length === 1}].  A disabled button does not fire its
    handler; [remove] of [useFieldArray] drops the element at the index. *)
Definition remove_question (questionIndex : nat) (d : CreateQuizForm)
  : CreateQuizForm :=
  if length (questions d) =? 1 then d
  else {| title := title d; questions := delete questionIndex (questions d) |}.

(** The registered inputs write the field they are bound to; the inputs of
    an option are rendered for the options there are. *)
Definition edit_title (v : jsstring) (d : CreateQuizForm) : CreateQuizForm :=
  {| title := v; questions := questions d |}.

Definition edit_option (i j : nat) (v : jsstring) (d : CreateQuizForm)
  : CreateQuizForm :=
  {| title := title d;
     questions := alter (λ q, mkQuestion (text q) (type q)
                                (insert j v <$> options q) (correctBoolean q)
                                (correctInput q) (correctCheckbox q))
                    i (questions d) |}.

Definition edit_flag (i j : nat) (v : bool) (d : CreateQuizForm)
  : CreateQuizForm :=
  {| title := title d;
     questions := alter (λ q, mkQuestion (text q) (type q) (options q)
                                (correctBoolean q) (correctInput q)
                                (insert j v <$> correctCheckbox q))
                    i (questions d) |}.

(** What the user can do to the draft. *)
Inductive Action :=
  | AddQuestion
  | RemoveQuestion (questionIndex : nat)
  | ChangeType (questionIndex : nat) (newType : TypeValue)
  | AddOption (questionIndex : nat)
  | RemoveOption (questionIndex optionIndex : nat)
  | EditTitle (v : jsstring)
  | EditText (questionIndex : nat) (v : jsstring)
  | EditOption (questionIndex optionIndex : nat) (v : jsstring)
  | EditFlag (questionIndex optionIndex : nat) (v : bool)
  | EditCorrectBoolean (questionIndex : nat) (v : TrueFalse)
  | EditCorrectInput (questionIndex : nat) (v : jsstring).

Definition step (d : CreateQuizForm) (a : Action) : CreateQuizForm :=
  match a with
  | AddQuestion => addQuestion d
  | RemoveQuestion i => remove_question i d
  | ChangeType i t => change_type i t d
  | AddOption i => addOption i d
  | RemoveOption i j => removeOption i j d
  | EditTitle v => edit_title v d
  | EditText i v => setValue_text i v d
  | EditOption i j v => edit_option i j v d
  | EditFlag i j v => edit_flag i j v d
  | EditCorrectBoolean i v => setValue_correctBoolean i (Some v) d
  | EditCorrectInput i v => setValue_correctInput i (Some v) d
  end.

(** The drafts an editing session can reach from [defaultValues]. *)
Inductive reachable : CreateQuizForm → Prop :=
  | reachable_init : reachable defaultValues
  | reachable_step d a : reachable d → reachable (step d a).

(** The states after each call of a sequence of actions, in order. *)
Fixpoint states_after (d : CreateQuizForm) (actions : list Action)
  : list CreateQuizForm :=
  match actions with
  | [] => []
  | a :: rest => step d a :: states_after (step d a) rest
  end.

Definition is_option_call (a : Action) : bool :=
  match a with
  | AddOption _ | RemoveOption _ _ => true
  | _ => false
  end.

(** ** [services/api.ts]

    [fetch], the parsed bodies, the errors of the host and the rendering of
    an id inside a template literal are the environment of the helpers.  An
    [async] function settles: it is fulfilled with a value or rejected with
    what was thrown.  What the host rejects with (a [TypeError] of [fetch]
    when there is no response, a [SyntaxError] of [res.json()] when the body
    does not parse) is kept apart from the [Error] objects the helpers
    create. *)

Module Api.

Inductive Thrown (HostError : Type) :=
  | Error (message : string)     (* [new Error(message)] *)
  | Host (e : HostError).
Arguments Error {HostError} message.
Arguments Host {HostError} e.

Inductive Settled (HostError A : Type) :=
  | Fulfilled (a : A)
  | Rejected (e : Thrown HostError).
Arguments Fulfilled {HostError A} a.
Arguments Rejected {HostError A} e.

(** A promise of the host: fulfilled, or rejected with a host error. *)
Definition host {E A} (r : E + A) : Settled E A :=
  match r with
  | inl e => Rejected (Host e)
  | inr a => Fulfilled a
  end.

(** [const x = await p; k] *)
Definition await {E A B} (p : Settled E A) (k : A → Settled E B) : Settled E B :=
  match p with
  | Fulfilled a => k a
  | Rejected e => Rejected e
  end.

Notation "x ← 'await' p ; k" := (await p (λ x, k))
  (at level 20, p at level 100, k at level 200, only parsing).

Inductive Method := GET | POST | DELETE.

Record Request := mkRequest {
  url : jsstring;
  method : Method;
  headers : list (string * string);
  body : option jsstring;
}.

Record Response (HostError Body : Type) := mkResponse {
  ok : bool;
  json : HostError + Body;
}.
Arguments mkResponse {HostError Body} ok json.
Arguments ok {HostError Body} r.
Arguments json {HostError Body} r.

Section Helpers.
Context {HostError Body Id : Type}.
Variable API_URL : jsstring.
Variable show_id : Id → jsstring.
Variable JSON_stringify : CreateQuizPayload → jsstring.
Variable fetch : Request → HostError + Response HostError Body.

Definition getQuizzes_request : Request :=
  mkRequest (API_URL ++ js "/quizzes") GET [] None.

Definition getQuiz_request (id : Id) : Request :=
  mkRequest (API_URL ++ js "/quizzes/" ++ show_id id) GET [] None.

Definition createQuiz_request (data : CreateQuizPayload) : Request :=
  mkRequest (API_URL ++ js "/quizzes") POST
    [("Content-Type", "application/json")] (Some (JSON_stringify data)).

Definition deleteQuiz_request (id : Id) : Request :=
  mkRequest (API_URL ++ js "/quizzes/" ++ show_id id) DELETE [] None.

Definition getQuizzes : Settled HostError Body :=
  res ← await host (fetch getQuizzes_request);
  if negb (ok res) then Rejected (Error "Failed to fetch quizzes")
  else host (json res).

Definition getQuiz (id : Id) : Settled HostError Body :=
  res ← await host (fetch (getQuiz_request id));
  if negb (ok res) then Rejected (Error "Failed to fetch quiz")
  else host (json res).

Definition createQuiz (data : CreateQuizPayload) : Settled HostError Body :=
  res ← await host (fetch (createQuiz_request data));
  if negb (ok res) then Rejected (Error "Failed to create quiz")
  else host (json res).

Definition deleteQuiz (id : Id) : Settled HostError unit :=
  res ← await host (fetch (deleteQuiz_request id));
  if negb (ok res) then Rejected (Error "Failed to delete quiz")
  else Fulfilled ().
End Helpers.

End Api.

(** ** What a thrown value shows: [err instanceof Error ? err.message : fallback]

    An [Error] of the helpers carries its message; what the host rejects
    with has a message when it is an [Error] object. *)
Definition error_message {HostError} (host_message : HostError → option string)
    (fallback : string) (err : Api.Thrown HostError) : string :=
  match err with
  | Api.Error message => message
  | Api.Host e => default fallback (host_message e)
  end.

(** ** The submit handler of the create page

    [submissionError] of the page and the calls of [router.push] are the
    state [onSubmit] acts on. *)

Module CreatePage.

Record State := mkState {
  submissionError : option string;
  pushed : list jsstring;
}.

Section Submit.
Context {HostError Body : Type}.
Variable API_URL : jsstring.
Variable JSON_stringify : CreateQuizPayload → jsstring.
Variable fetch : Api.Request → HostError + Api.Response HostError Body.
Variable host_message : HostError → option string.

Definition onSubmit (data : CreateQuizForm) (st : State) : State :=
  let st := {| submissionError := None; pushed := pushed st |} in
  match Api.createQuiz API_URL JSON_stringify fetch (onSubmit_payload data) with
  | Api.Fulfilled _ =>
      {| submissionError := submissionError st;
         pushed := pushed st ++ [js "/quizzes"] |}
  | Api.Rejected error =>
      {| submissionError :=
           Some (error_message host_message "Failed to create quiz" error);
         pushed := pushed st |}
  end.

(** The form's [onSubmit={handleSubmit(onSubmit)}]: with issues the handler
    is not called. *)
Definition submit (values : CreateQuizForm) (st : State) : State :=
  match safeParse values with
  | inr data => onSubmit data st
  | inl _ => st
  end.
End Submit.

End CreatePage.

(** ** The quizzes the API returns: [Quiz] and [Question] of the two pages
    under [pages/quizzes] *)

Module Wire.

(** [correctAnswer?: boolean | string | string[]] *)
Inductive CorrectAnswer :=
  | a_boolean (b : bool)
  | a_string (s : jsstring)
  | a_array (l : list jsstring).

Record Question := mkQuestion {
  question_id : Z;
  text : jsstring;
  type : QuestionType;
  options : option (list jsstring);
  correctAnswer : option CorrectAnswer;
}.

(** [questions] is optional on the list page, and the details page tests it
    with [Array.isArray]. *)
Record Quiz := mkQuiz {
  id : Z;
  title : jsstring;
  questions : option (list Question);
}.

End Wire.

(** ** [pages/quizzes/[id].tsx] *)

Module Details.

(** [Array.isArray(quiz?.questions) ? quiz.questions : []] *)
Definition questions (quiz : option Wire.Quiz) : list Wire.Question :=
  match quiz with
  | Some q => default [] (Wire.questions q)
  | None => []
  end.

(** The text after "Correct answer:" of a boolean question. *)
Definition boolean_answer (question : Wire.Question) : jsstring :=
  match Wire.correctAnswer question with
  | Some (Wire.a_boolean b) => if b then js "True" else js "False"
  | _ => js "True / False"
  end.

(** The text after "Expected answer:" of an input question. *)
Definition input_answer (question : Wire.Question) : jsstring :=
  match Wire.correctAnswer question with
  | Some (Wire.a_string s) =>
      if 0 <? length (trim s) then s else js "Text answer"
  | _ => js "Text answer"
  end.

(** [isCorrect] of an option of a checkbox question. *)
Definition isCorrect (question : Wire.Question) (option : jsstring) : bool :=
  let correctAnswers :=
    match Wire.correctAnswer question with
    | Some (Wire.a_array l) => l
    | _ => []
    end in
  bool_decide (option ∈ correctAnswers).

(** What the card of a question shows below its text: one block per type. *)
Inductive AnswerView :=
  | BooleanView (label : jsstring)
  | InputView (label : jsstring)
  | CheckboxView (items : list (jsstring * bool)).

Definition answer_view (question : Wire.Question) : AnswerView :=
  match Wire.type question with
  | boolean => BooleanView (boolean_answer question)
  | input => InputView (input_answer question)
  | checkbox =>
      CheckboxView ((λ option, (option, isCorrect question option))
                      <$> default [] (Wire.options question))
  end.

(** [context.params?.id]: absent, a string, or an array of strings. *)
Inductive Param := param_string (s : jsstring) | param_array (l : list jsstring).

(** The props of the page and what was written with [console.error]. *)
Record Served (HostError Body : Type) := mkServed {
  quiz : option Body;
  console_error : option (jsstring * Api.Thrown HostError);
}.
Arguments mkServed {HostError Body} quiz console_error.
Arguments quiz {HostError Body} s.
Arguments console_error {HostError Body} s.

Definition getServerSideProps {HostError Body : Type} (API_URL : jsstring)
    (fetch : Api.Request → HostError + Api.Response HostError Body)
    (id : option Param) : Served HostError Body :=
  match id with
  | Some (param_string (c :: s)) =>
      match Api.getQuiz API_URL (λ id : jsstring, id) fetch (c :: s) with
      | Api.Fulfilled quiz => mkServed (Some quiz) None
      | Api.Rejected error =>
          mkServed None (Some (js "Failed to load quiz " ++ c :: s, error))
      end
  | _ => mkServed None None
  end.

End Details.

(** ** [pages/quizzes/index.tsx] *)

Module QuizzesList.

Record State := mkState {
  quizzes : list Wire.Quiz;
  deletingId : option Z;
  error : option string;
}.

(** [handleDelete] up to the [await]: the error is cleared and the id
    marked as being deleted. *)
Definition handleDelete_start (id : Z) (st : State) : State :=
  {| quizzes := quizzes st; deletingId := Some id; error := None |}.

(** [handleDelete] once [deleteQuiz(id)] has settled: [try], [catch],
    [finally]. *)
Definition handleDelete_settle {HostError}
    (host_message : HostError → option string) (id : Z)
    (outcome : Api.Settled HostError unit) (st : State) : State :=
  let st :=
    match outcome with
    | Api.Fulfilled _ =>
        {| quizzes := filter (λ quiz, Wire.id quiz ≠ id) (quizzes st);
           deletingId := deletingId st; error := error st |}
    | Api.Rejected err =>
        {| quizzes := quizzes st; deletingId := deletingId st;
           error := Some (error_message host_message "Failed to delete quiz" err) |}
    end in
  {| quizzes := quizzes st; deletingId := None; error := error st |}.

Definition handleDelete {HostError Body : Type} (API_URL : jsstring)
    (show_id : Z → jsstring)
    (fetch : Api.Request → HostError + Api.Response HostError Body)
    (host_message : HostError → option string) (id : Z) (st : State) : State :=
  handleDelete_settle host_message id (Api.deleteQuiz API_URL show_id fetch id)
    (handleDelete_start id st).

(** [disabled={deletingId === quiz.id}] *)
Definition delete_disabled (st : State) (quiz : Wire.Quiz) : bool :=
  bool_decide (deletingId st = Some (Wire.id quiz)).

(** The props of the page and what was written with [console.error]; the
    body is read as the array of quizzes its type says it is. *)
Record Served (HostError : Type) := mkServed {
  initialQuizzes : list Wire.Quiz;
  console_error : option (jsstring * Api.Thrown HostError);
}.
Arguments mkServed {HostError} initialQuizzes console_error.
Arguments initialQuizzes {HostError} s.
Arguments console_error {HostError} s.

Definition getServerSideProps {HostError : Type} (API_URL : jsstring)
    (fetch : Api.Request → HostError + Api.Response HostError (list Wire.Quiz))
  : Served HostError :=
  match Api.getQuizzes API_URL fetch with
  | Api.Fulfilled quizzes => mkServed quizzes None
  | Api.Rejected error => mkServed [] (Some (js "Failed to load quizzes", error))
  end.

End QuizzesList.

(** ** The notions the specification is written in *)

(** A string that is empty or starts with a character that [trim] keeps. *)
Definition clean_start (s : jsstring) : Prop :=
  match s with
  | [] => True
  | c :: _ => isWhiteSpace c = false
  end.

Definition is_trimmed (s : jsstring) : Prop := trim s = s.

(** The subsequence of [l] whose flag, at the same position, is set. *)
Fixpoint flagged {A} (l : list A) (flags : list bool) : list A :=
  match l, flags with
  | x :: l', b :: flags' =>
      if b then x :: flagged l' flags' else flagged l' flags'
  | _, _ => []
  end.

(** The issues of one question, and the paths validation reports. *)
Definition questionSchema_issues (q : Question) : list ZodIssue :=
  (questionSchema_parse q).1.

Definition error_paths (d : CreateQuizForm) : list Path :=
  issue_path <$> validate d.

(** The shape of a submission record: a boolean question carries the two
    fixed options, an input question a trimmed answer, a checkbox question
    trimmed non-empty options and an answer that is a subsequence of them. *)
Definition question_payload_ok (p : QuizQuestionPayload) : Prop :=
  match p with
  | BooleanQuizQuestionPayload _ opts _ => opts = Some [js "True"; js "False"]
  | InputQuizQuestionPayload _ answer => is_trimmed answer
  | CheckboxQuizQuestionPayload _ opts answer =>
      Forall (λ o, is_trimmed o ∧ o ≠ []) opts ∧ answer `sublist_of` opts
  | UntypedQuizQuestionPayload _ _ _ => False
  end.

Definition submission_ok (s : CreateQuizPayload) : Prop :=
  Forall question_payload_ok (payload_questions s).

(** Options and flags of a question have the same length, an absent array
    counting as empty. *)
Definition aligned (q : Question) : Prop :=
  length (default [] (options q)) = length (default [] (correctCheckbox q)).

Definition checkboxes_aligned (d : CreateQuizForm) : Prop :=
  Forall (λ q, type q = checkbox → aligned q) (questions d).

(** The violations the specification lists for one question, by the path of
    the field inside the question. *)
Inductive listed_question_violation (q : Question) : Path → Prop :=
  | text_empty :
      text q = [] → listed_question_violation q [Key "text"]
  | boolean_not_selected :
      type q = boolean → correctBoolean q = None →
      listed_question_violation q [Key "correctBoolean"]
  | input_blank :
      type q = input → trim (default [] (correctInput q)) = [] →
      listed_question_violation q [Key "correctInput"]
  | checkbox_no_option :
      type q = checkbox → default [] (options q) = [] →
      listed_question_violation q [Key "options"]
  | checkbox_flags_length :
      type q = checkbox →
      length (default [] (correctCheckbox q)) ≠ length (default [] (options q)) →
      listed_question_violation q [Key "correctCheckbox"]
  | checkbox_no_true_flag :
      type q = checkbox →
      some_Boolean (default [] (correctCheckbox q)) = false →
      listed_question_violation q [Key "correctCheckbox"].

(** A type that is none of the three question types. *)
Inductive type_not_chosen (q : Question) : Path → Prop :=
  | type_not_chosen_at :
      type q = not_chosen → type_not_chosen q [Key "type"].

(** [t] is [s] without its leading and trailing whitespace: [s] is [t]
    between two runs of whitespace, and [t] neither starts nor ends with a
    whitespace character. *)
Definition trimmed_of (s t : jsstring) : Prop :=
  ∃ before after,
    s = before ++ t ++ after
    ∧ Forall (λ c, isWhiteSpace c = true) before
    ∧ Forall (λ c, isWhiteSpace c = true) after
    ∧ clean_start t ∧ clean_start (rev t).

(** An option that is blank once trimmed, whatever the type of the
    question. *)
Inductive blank_option (q : Question) : Path → Prop :=
  | blank_option_at opts j o :
      options q = Some opts → opts !! j = Some o → trim o = [] →
      blank_option q [Key "options"; Idx j].

(** The violations of a draft: the universal ones, and those of each
    question under [questions[i]]. *)
Inductive draft_violation (in_question : Question → Path → Prop)
    (d : CreateQuizForm) : Path → Prop :=
  | title_empty :
      title d = [] → draft_violation in_question d [Key "title"]
  | no_question :
      questions d = [] → draft_violation in_question d [Key "questions"]
  | question_violation i q p :
      questions d !! i = Some q → in_question q p →
      draft_violation in_question d (Key "questions" :: Idx i :: p).

(** What the option and type handlers do to the question they are called
    on: [add_option] appends an empty option and a false flag,
    [remove_option] drops the option and the flag at one index (an array
    that becomes empty is stored as absent), and a change of type
    re-initialises the type-specific fields. *)
Definition question_add_option (q : Question) : Question :=
  mkQuestion (text q) (type q)
    (Some (default [] (options q) ++ [js ""]))
    (correctBoolean q) (correctInput q)
    (Some (default [] (correctCheckbox q) ++ [false])).

Definition question_remove_option (optionIndex : nat) (q : Question) : Question :=
  mkQuestion (text q) (type q)
    (nonempty_or_undefined (delete optionIndex (default [] (options q))))
    (correctBoolean q) (correctInput q)
    (nonempty_or_undefined (delete optionIndex (default [] (correctCheckbox q)))).

Definition question_change_type (newType : TypeValue) (q : Question)
  : Question :=
  match newType with
  | not_chosen =>
      mkQuestion (text q) not_chosen (options q) (correctBoolean q)
        (correctInput q) (correctCheckbox q)
  | chosen boolean => mkQuestion (text q) boolean None (Some str_true) None None
  | chosen input => mkQuestion (text q) input None None (Some (js "")) None
  | chosen checkbox =>
      let opts :=
        match default [] (options q) with
        | [] => [js ""]
        | o :: os => o :: os
        end in
      mkQuestion (text q) checkbox (Some opts) None None
        (Some (imap (λ idx _, default false (default [] (correctCheckbox q) !! idx))
                 opts))
  end.

(** A submission record with nothing left blank: a text, an answer to an
    input question, an option and a correct answer of a checkbox question. *)
Definition question_payload_complete (p : QuizQuestionPayload) : Prop :=
  payload_text p ≠ []
  ∧ match p with
    | BooleanQuizQuestionPayload _ _ _ => True
    | InputQuizQuestionPayload _ answer => answer ≠ []
    | CheckboxQuizQuestionPayload _ opts answer => opts ≠ [] ∧ answer ≠ []
    | UntypedQuizQuestionPayload _ _ _ => False
    end.

(** Options and flags of the same length, neither stored as an empty
    array. *)
Definition well_formed_question (q : Question) : Prop :=
  aligned q ∧ options q ≠ Some [] ∧ correctCheckbox q ≠ Some [].

(** The fields of a submission record as the API returns them when it
    stores a quiz as it was sent. *)
Definition payload_type (p : QuizQuestionPayload) : TypeValue :=
  match p with
  | BooleanQuizQuestionPayload _ _ _ => boolean
  | InputQuizQuestionPayload _ _ => input
  | CheckboxQuizQuestionPayload _ _ _ => checkbox
  | UntypedQuizQuestionPayload _ _ _ => not_chosen
  end.

Definition payload_options (p : QuizQuestionPayload) : option (list jsstring) :=
  match p with
  | BooleanQuizQuestionPayload _ opts _ => opts
  | InputQuizQuestionPayload _ _ => None
  | CheckboxQuizQuestionPayload _ opts _ => Some opts
  | UntypedQuizQuestionPayload _ opts _ => Some opts
  end.

Definition payload_correctAnswer (p : QuizQuestionPayload) : Wire.CorrectAnswer :=
  match p with
  | BooleanQuizQuestionPayload _ _ b => Wire.a_boolean b
  | InputQuizQuestionPayload _ s => Wire.a_string s
  | CheckboxQuizQuestionPayload _ _ l => Wire.a_array l
  | UntypedQuizQuestionPayload _ _ l => Wire.a_array l
  end.

Definition stored_as (p : QuizQuestionPayload) (question : Wire.Question) : Prop :=
  Wire.text question = payload_text p
  ∧ chosen (Wire.type question) = payload_type p
  ∧ Wire.options question = payload_options p
  ∧ Wire.correctAnswer question = Some (payload_correctAnswer p).

(** * Properties *)

(** ** Trimming *)

Section Trim.
Implicit Types s t : jsstring.

Lemma trimStart_clean s : clean_start (trimStart s).
Proof.
  induction s as [|c s IH]; simpl; [done|].
  destruct (isWhiteSpace c) eqn:Hc; [done|]. simpl. by rewrite Hc.
Qed.

Lemma trimStart_fixed s : clean_start s → trimStart s = s.
Proof. destruct s as [|c s]; simpl; [done|]. by intros ->. Qed.

Lemma trimStart_idemp s : trimStart (trimStart s) = trimStart s.
Proof. apply trimStart_fixed, trimStart_clean. Qed.

Lemma trimStart_suffix s : ∃ p, s = p ++ trimStart s.
Proof.
  induction s as [|c s [p Hp]]; simpl; [by exists []|].
  destruct (isWhiteSpace c); [|by exists []].
  exists (c :: p). simpl. by rewrite <- Hp.
Qed.

Lemma trimEnd_prefix s : ∃ p, s = trimEnd s ++ p.
Proof.
  destruct (trimStart_suffix (rev s)) as [p Hp].
  exists (rev p). unfold trimEnd.
  rewrite <- rev_app_distr, <- Hp. by rewrite rev_involutive.
Qed.

Lemma trimEnd_idemp s : trimEnd (trimEnd s) = trimEnd s.
Proof. unfold trimEnd. by rewrite rev_involutive, trimStart_idemp. Qed.

Lemma trimEnd_clean s : clean_start s → clean_start (trimEnd s).
Proof.
  destruct (trimEnd_prefix s) as [p Hp].
  destruct (trimEnd s) as [|c t]; [done|].
  rewrite Hp. by simpl.
Qed.

Lemma trim_idemp s : trim (trim s) = trim s.
Proof.
  unfold trim.
  rewrite (trimStart_fixed (trimEnd (trimStart s))).
  - apply trimEnd_idemp.
  - apply trimEnd_clean, trimStart_clean.
Qed.

Lemma trimStart_whitespace s :
  Forall (λ c, isWhiteSpace c = true) s → trimStart s = [].
Proof. induction 1 as [|c s Hc _ IH]; simpl; [done|]. by rewrite Hc. Qed.

Lemma trim_whitespace s :
  Forall (λ c, isWhiteSpace c = true) s → trim s = [].
Proof. intros H. unfold trim. by rewrite trimStart_whitespace. Qed.
End Trim.

(** [trim] against its description: what it returns is the string without
    its leading and trailing whitespace, and nothing else is. *)

Section TrimSpec.
Implicit Types s t : jsstring.

Lemma Forall_rev_2 {A} (P : A → Prop) (l : list A) :
  Forall P l → Forall P (rev l).
Proof.
  induction 1 as [|x l Hx _ IH]; simpl; [constructor|].
  apply Forall_app. split; [done|]. by constructor.
Qed.

Lemma trimStart_split s :
  ∃ p, s = p ++ trimStart s ∧ Forall (λ c, isWhiteSpace c = true) p.
Proof.
  induction s as [|c s (p & Hp & Hws)]; simpl; [by exists []|].
  destruct (isWhiteSpace c) eqn:Hc; [|by exists []].
  exists (c :: p). split; [simpl; by rewrite <- Hp|by constructor].
Qed.

Lemma trimStart_app_whitespace p s :
  Forall (λ c, isWhiteSpace c = true) p → trimStart (p ++ s) = trimStart s.
Proof. induction 1 as [|c p Hc _ IH]; simpl; [done|]. by rewrite Hc. Qed.

Lemma trim_trimmed_of s : trimmed_of s (trim s).
Proof.
  destruct (trimStart_split s) as (before & Hs & Hbefore).
  destruct (trimStart_split (rev (trimStart s))) as (p & Hp & Hws).
  exists before, (rev p). split_and!.
  - rewrite Hs at 1. f_equal. unfold trim, trimEnd.
    rewrite <- rev_app_distr, <- Hp. by rewrite rev_involutive.
  - done.
  - by apply Forall_rev_2.
  - apply trimEnd_clean, trimStart_clean.
  - unfold trim, trimEnd. rewrite rev_involutive. apply trimStart_clean.
Qed.

Lemma trimmed_of_trim s t : trimmed_of s t → t = trim s.
Proof.
  intros (before & after & -> & Hbefore & Hafter & Hstart & Hend).
  unfold trim. rewrite trimStart_app_whitespace by done.
  destruct t as [|c t].
  - simpl. by rewrite trimStart_whitespace.
  - rewrite trimStart_fixed by done. unfold trimEnd.
    rewrite rev_app_distr, trimStart_app_whitespace by by apply Forall_rev_2.
    rewrite trimStart_fixed by done. by rewrite rev_involutive.
Qed.

Lemma Forall2_trimmed_of (l k : list jsstring) :
  Forall2 trimmed_of l k ↔ k = trim <$> l.
Proof.
  split.
  - induction 1 as [|s t l k Hst _ IH]; simpl; [done|].
    by rewrite (trimmed_of_trim s t Hst), IH.
  - intros ->. induction l as [|s l IH]; simpl; constructor; [|done].
    apply trim_trimmed_of.
Qed.
End TrimSpec.

(** ** Filtering by index *)

Section FilterIdx.
Context {A : Type}.
Implicit Types l : list A.

Lemma filter_from_ext (p p' : A → nat → bool) l k :
  (∀ x idx, k ≤ idx → p x idx = p' x idx) →
  filter_from p k l = filter_from p' k l.
Proof.
  revert k. induction l as [|x l IH]; intros k Hp; simpl; [done|].
  rewrite (Hp x k) by lia. rewrite (IH (S k)); [done|].
  intros y idx Hidx. apply Hp. lia.
Qed.

Lemma filter_from_none (p : A → nat → bool) l k :
  (∀ x idx, k ≤ idx → p x idx = false) → filter_from p k l = [].
Proof.
  revert k. induction l as [|x l IH]; intros k Hp; simpl; [done|].
  rewrite (Hp x k) by lia. apply IH. intros y idx Hidx. apply Hp. lia.
Qed.

Lemma filter_from_flags l (flags : list bool) k :
  filter_from (λ _ idx, default false (flags !! (idx - k))) k l
  = flagged l flags.
Proof.
  revert flags k. induction l as [|x l IH]; intros flags k; simpl.
  { by destruct flags. }
  rewrite Nat.sub_diag. destruct flags as [|b flags]; simpl.
  - apply filter_from_none. intros y idx Hidx.
    by destruct (idx - k).
  - rewrite <- (IH flags (S k)).
    rewrite (filter_from_ext
               (λ _ idx, default false ((b :: flags) !! (idx - k)))
               (λ _ idx, default false (flags !! (idx - S k))) l (S k)).
    + done.
    + intros y idx Hidx. replace (idx - k) with (S (idx - S k)) by lia. done.
Qed.

Lemma filter_idx_flags l (flags : list bool) :
  filter_idx (λ _ idx, default false (flags !! idx)) l = flagged l flags.
Proof.
  unfold filter_idx. rewrite <- (filter_from_flags l flags 0).
  apply filter_from_ext. intros y idx _. by rewrite Nat.sub_0_r.
Qed.

Lemma flagged_sublist l flags : flagged l flags `sublist_of` l.
Proof.
  revert flags. induction l as [|x l IH]; intros [|[] flags]; simpl;
    try apply sublist_nil_l.
  - by apply sublist_skip.
  - by apply sublist_cons.
Qed.

Lemma filter_from_all (p : A → nat → bool) l k :
  (∀ x idx, k ≤ idx → p x idx = true) → filter_from p k l = l.
Proof.
  revert k. induction l as [|x l IH]; intros k Hp; simpl; [done|].
  rewrite (Hp x k) by lia. f_equal. apply IH. intros y idx Hidx. apply Hp. lia.
Qed.

Lemma filter_from_delete l i k :
  filter_from (λ _ idx, negb (idx =? i + k)) k l = delete i l.
Proof.
  revert i k. induction l as [|x l IH]; intros i k; simpl; [done|].
  destruct i as [|i]; simpl.
  - rewrite Nat.eqb_refl. simpl. apply filter_from_all.
    intros y idx Hidx. destruct (Nat.eqb_spec idx k); [lia|done].
  - destruct (Nat.eqb_spec k (S (i + k))); [lia|]. simpl. f_equal.
    rewrite <- (IH i (S k)). by rewrite Nat.add_succ_r.
Qed.

(** [l.filter((_, idx) => idx !== i)] drops the element at [i]. *)
Lemma filter_idx_delete l i :
  filter_idx (λ _ idx, negb (idx =? i)) l = delete i l.
Proof.
  unfold filter_idx. rewrite <- (filter_from_delete l i 0).
  by rewrite Nat.add_0_r.
Qed.
End FilterIdx.

(** ** Editing sessions *)

Lemma reachable_from (d : CreateQuizForm) (actions : list Action) :
  reachable d → reachable (foldl step d actions).
Proof.
  revert d. induction actions as [|a actions IH]; intros d Hd; simpl; [done|].
  apply IH. by apply reachable_step.
Qed.

Lemma reachable_by (actions : list Action) :
  reachable (foldl step defaultValues actions).
Proof. apply reachable_from, reachable_init. Qed.

(** ** When validation passes *)

Lemma join_imap_nil {A B} (f : nat → A → list B) (l : list A) :
  mjoin (imap f l) = [] ↔ ∀ i x, l !! i = Some x → f i x = [].
Proof.
  revert f. induction l as [|y l IH]; intros f; simpl.
  { split; [intros _ i x Hi; by destruct i|done]. }
  rewrite app_nil, IH. split.
  - intros [H0 HS] [|i] x Hi; simpl in Hi; [by inversion Hi; subst|].
    by apply HS.
  - intros H. split; [by apply (H 0)|]. intros i x Hi. by apply (H (S i)).
Qed.

Lemma fmap_under_nil (s : PathSegment) (l : list ZodIssue) :
  under s <$> l = [] ↔ l = [].
Proof. by destruct l. Qed.

Lemma string_min1_nil message (s : jsstring) :
  string_min1 message s = [] ↔ s ≠ [].
Proof. unfold string_min1. by destruct s. Qed.

Lemma options_issues_nil (opts : list jsstring) :
  (options_parse opts).1 = [] ↔ Forall (λ o, trim o ≠ []) opts.
Proof.
  unfold options_parse. simpl. rewrite join_imap_nil, Forall_lookup.
  split; intros H i o Hi.
  - apply (string_min1_nil "Option cannot be empty").
    apply (fmap_under_nil (Idx i)). by apply H.
  - apply fmap_under_nil, string_min1_nil. by apply (H i).
Qed.

Lemma superRefine_parsed (q : Question) :
  superRefine (questionSchema_parse q).2 = superRefine q.
Proof.
  unfold superRefine, questionSchema_parse.
  cbn [snd type correctBoolean correctInput correctCheckbox options].
  destruct (options q) as [[|o os]|]; cbn [fst snd]; try done.
  unfold options_parse. cbn [snd default id fmap list_fmap]. simpl.
  by rewrite length_fmap.
Qed.

Lemma superRefine_not_chosen (q : Question) :
  type q = not_chosen → superRefine q = [].
Proof. unfold superRefine. by intros ->. Qed.

Lemma enum_questionTypes_nil (v : TypeValue) :
  enum_questionTypes v = [] ↔ v ≠ not_chosen.
Proof. by destruct v. Qed.

Lemma questionSchema_issues_eq (q : Question) :
  questionSchema_issues q
  = (under (Key "text") <$> string_min1 "Question text is required" (text q))
    ++ (under (Key "type") <$> enum_questionTypes (type q))
    ++ (under (Key "options")
          <$> match options q with
              | Some opts => (options_parse opts).1
              | None => []
              end)
    ++ superRefine q.
Proof.
  unfold questionSchema_issues.
  assert (Hr : match type q with
               | chosen _ => superRefine (questionSchema_parse q).2
               | not_chosen => []
               end = superRefine q).
  { destruct (type q) eqn:Ht; [apply superRefine_parsed|].
    by rewrite superRefine_not_chosen. }
  rewrite <- Hr. unfold questionSchema_parse.
  destruct (options q), (type q); reflexivity.
Qed.

(** A question without issue: its text, its type, its options and the
    fields [superRefine] looks at. *)
Lemma questionSchema_issues_nil (q : Question) :
  questionSchema_issues q = [] ↔
    text q ≠ []
    ∧ (∀ opts, options q = Some opts → Forall (λ o, trim o ≠ []) opts)
    ∧ superRefine (questionSchema_parse q).2 = []
    ∧ type q ≠ not_chosen.
Proof.
  rewrite questionSchema_issues_eq, superRefine_parsed.
  rewrite !app_nil, !fmap_under_nil, string_min1_nil, enum_questionTypes_nil.
  destruct (options q) as [opts|] eqn:Hopts.
  - rewrite options_issues_nil. split.
    + intros (? & ? & ? & ?). split_and!; [done| |done|done]. by intros ? [= <-].
    + intros (? & H & ? & ?). split_and!; [done|done| |done]. by apply H.
  - split.
    + intros (? & ? & ? & ?). by split_and!.
    + intros (? & ? & ? & ?). by split_and!.
Qed.

Lemma validate_nil (d : CreateQuizForm) :
  validate d = [] ↔
    title d ≠ [] ∧ questions d ≠ []
    ∧ Forall (λ q, questionSchema_issues q = []) (questions d).
Proof.
  unfold validate, createQuizSchema_parse, questions_parse. simpl.
  rewrite app_nil, !fmap_under_nil, string_min1_nil, app_nil, join_imap_nil.
  rewrite Forall_lookup. split.
  - intros (Ht & Hq & Hall). split_and!; [done|by destruct (questions d)|].
    intros i q Hi. apply (fmap_under_nil (Idx i)). by apply Hall.
  - intros (Ht & Hq & Hall). split_and!; [done|by destruct (questions d)|].
    intros i q Hi. apply fmap_under_nil. by apply (Hall i).
Qed.

Lemma valid_boolean (q : Question) :
  type q = boolean → questionSchema_issues q = [] →
  ∃ v, correctBoolean q = Some v.
Proof.
  intros Ht (_ & _ & Hr & _)%questionSchema_issues_nil.
  unfold superRefine in Hr. simpl in Hr. rewrite Ht in Hr. simpl in Hr.
  destruct (correctBoolean q) as [v|]; [by exists v|done].
Qed.

Lemma valid_input (q : Question) :
  type q = input → questionSchema_issues q = [] →
  ∃ s, correctInput q = Some s ∧ trim s ≠ [].
Proof.
  intros Ht (_ & _ & Hr & _)%questionSchema_issues_nil.
  unfold superRefine in Hr. simpl in Hr. rewrite Ht in Hr. simpl in Hr.
  destruct (correctInput q) as [[|c s]|]; [done| |done].
  exists (c :: s). split; [done|].
  by destruct (trim (c :: s)).
Qed.

Lemma valid_checkbox (q : Question) :
  type q = checkbox → questionSchema_issues q = [] →
  ∃ opts flags,
    options q = Some opts ∧ correctCheckbox q = Some flags
    ∧ opts ≠ [] ∧ Forall (λ o, trim o ≠ []) opts
    ∧ length flags = length opts ∧ some_Boolean flags = true.
Proof.
  intros Ht (_ & Hopts & Hr & _)%questionSchema_issues_nil.
  unfold superRefine, questionSchema_parse in Hr. simpl in Hr.
  rewrite Ht in Hr. simpl in Hr.
  destruct (options q) as [opts|] eqn:Ho; simpl in Hr; [|done].
  destruct (correctCheckbox q) as [flags|];
    [|by destruct (trim <$> opts)].
  exists opts, flags.
  rewrite length_fmap in Hr.
  destruct opts as [|o os]; [done|]. simpl in Hr.
  destruct (Nat.eqb_spec (length flags) (S (length os))); [|done].
  simpl in Hr. destruct (some_Boolean flags); [|done].
  split_and!; try done. by apply Hopts.
Qed.

(** ** The payload mapping *)

Lemma onSubmit_payload_lookup (d : CreateQuizForm) (i : nat) :
  payload_questions (onSubmit_payload d) !! i
  = questionPayload <$> questions d !! i.
Proof. unfold onSubmit_payload. simpl. apply list_lookup_fmap. Qed.

Lemma questionPayload_boolean (q : Question) :
  type q = boolean →
  questionPayload q
  = BooleanQuizQuestionPayload (text q) (Some [js "True"; js "False"])
      (bool_decide (correctBoolean q = Some str_true)).
Proof. unfold questionPayload. by intros ->. Qed.

Lemma questionPayload_input (q : Question) :
  type q = input →
  questionPayload q
  = InputQuizQuestionPayload (text q) (trim (default [] (correctInput q))).
Proof. unfold questionPayload. intros ->. by destruct (correctInput q). Qed.

Lemma questionPayload_checkbox (q : Question) :
  type q = checkbox →
  questionPayload q
  = CheckboxQuizQuestionPayload (text q) (trim <$> default [] (options q))
      (flagged (trim <$> default [] (options q))
         (default [] (correctCheckbox q))).
Proof. unfold questionPayload. intros ->. by rewrite filter_idx_flags. Qed.

Lemma questionPayload_text (q : Question) :
  payload_text (questionPayload q) = text q.
Proof. unfold questionPayload. by destruct (type q) as [[]|]. Qed.

(** C3: a checkbox question that passes validation is submitted as
    [{text, type: "checkbox", options, correctAnswer}] where [options] are
    the draft's options, each without its leading and trailing whitespace,
    and [correctAnswer] is the subsequence of those trimmed options whose
    flag at the same index is true, in the original order; such a question
    has options and as many flags; options Red, Green, Blue with flags true,
    false, true give the answer Red, Blue, also when they are typed with
    spaces around them. *)
Theorem checkbox_submission :
  (∀ (d : CreateQuizForm) (i : nat) (q : Question) opts flags os,
     questions d !! i = Some q → type q = checkbox →
     questionSchema_issues q = [] →
     options q = Some opts → correctCheckbox q = Some flags →
     Forall2 trimmed_of opts os →
     payload_questions (onSubmit_payload d) !! i
     = Some (CheckboxQuizQuestionPayload (text q) os (flagged os flags)))
  ∧ (∀ q : Question,
       type q = checkbox → questionSchema_issues q = [] →
       ∃ opts flags os,
         options q = Some opts ∧ correctCheckbox q = Some flags
         ∧ length flags = length opts ∧ Forall2 trimmed_of opts os)
  ∧ (∀ t : jsstring,
       questionPayload
         (mkQuestion t checkbox (Some [js "Red"; js "Green"; js "Blue"])
            None None (Some [true; false; true]))
       = CheckboxQuizQuestionPayload t [js "Red"; js "Green"; js "Blue"]
           [js "Red"; js "Blue"])
  ∧ (∀ t : jsstring,
       questionPayload
         (mkQuestion t checkbox (Some [js " Red"; js "Green  "; js " Blue "])
            None None (Some [true; false; true]))
       = CheckboxQuizQuestionPayload t [js "Red"; js "Green"; js "Blue"]
           [js "Red"; js "Blue"]).
Proof.
  split_and!.
  - intros d i q opts flags os Hi Ht Hv Ho Hf ->%Forall2_trimmed_of.
    rewrite onSubmit_payload_lookup, Hi. simpl.
    by rewrite (questionPayload_checkbox q Ht), Ho, Hf.
  - intros q Ht Hv.
    destruct (valid_checkbox q Ht Hv) as (opts & flags & Ho & Hf & _ & _ & Hlen & _).
    exists opts, flags, (trim <$> opts). split_and!; [done..|].
    by apply Forall2_trimmed_of.
  - intros t. reflexivity.
  - intros t. reflexivity.
Qed.

Lemma checkbox_submission_witness :
  payload_questions
    (onSubmit_payload
       (mkForm (js "T")
          [mkQuestion (js "Q") checkbox (Some [js " a "; js "b "]) None None
             (Some [false; true])])) !! 0
  = Some (CheckboxQuizQuestionPayload (js "Q") [js "a"; js "b"] [js "b"]).
Proof.
  apply (proj1 checkbox_submission
           (mkForm (js "T")
              [mkQuestion (js "Q") checkbox (Some [js " a "; js "b "]) None None
                 (Some [false; true])])
           0
           (mkQuestion (js "Q") checkbox (Some [js " a "; js "b "]) None None
              (Some [false; true]))
           [js " a "; js "b "] [false; true] [js "a"; js "b"]);
    try reflexivity.
  constructor; [|constructor; [|constructor]].
  - exists (js " "), (js " ").
    split_and!; [reflexivity|by repeat constructor..].
  - exists [], (js " ").
    split_and!; [reflexivity|by repeat constructor..].
Defined.

(** C4: a boolean question that passes validation is submitted as
    [{text, type: "boolean", options: ["True", "False"], correctAnswer}]
    with [correctAnswer] true exactly when [correctBoolean] is ["true"]; the
    draft titled Geo with one boolean question answered ["true"] maps to the
    submission titled Geo with that question, the two options and
    [correctAnswer: true]. *)
Theorem boolean_submission :
  (∀ (d : CreateQuizForm) (i : nat) (q : Question),
     questions d !! i = Some q → type q = boolean →
     questionSchema_issues q = [] →
     ∃ answer : bool,
       payload_questions (onSubmit_payload d) !! i
       = Some (BooleanQuizQuestionPayload (text q)
                 (Some [js "True"; js "False"]) answer)
       ∧ (answer = true ↔ correctBoolean q = Some str_true))
  ∧ (∀ t : jsstring,
       onSubmit_payload
         (mkForm (js "Geo") [mkQuestion t boolean None (Some str_true) None None])
       = mkPayload (js "Geo")
           [BooleanQuizQuestionPayload t (Some [js "True"; js "False"]) true]).
Proof.
  split.
  - intros d i q Hi Ht _.
    exists (bool_decide (correctBoolean q = Some str_true)). split.
    + rewrite onSubmit_payload_lookup, Hi. simpl.
      by rewrite (questionPayload_boolean q Ht).
    + apply bool_decide_eq_true.
  - intros t. reflexivity.
Qed.

Lemma boolean_submission_witness :
  ∃ answer : bool,
    payload_questions
      (onSubmit_payload
         (mkForm (js "Geo")
            [mkQuestion (js "Q") boolean None (Some str_false) None None])) !! 0
    = Some (BooleanQuizQuestionPayload (js "Q")
              (Some [js "True"; js "False"]) answer)
    ∧ (answer = true ↔ Some str_false = Some str_true).
Proof.
  apply (proj1 boolean_submission
           (mkForm (js "Geo")
              [mkQuestion (js "Q") boolean None (Some str_false) None None])
           0
           (mkQuestion (js "Q") boolean None (Some str_false) None None));
    reflexivity.
Defined.

(** C5, as the specification states it, fails: the text of a question is
    copied to the submission as it is.  A valid draft whose question text is
    [" Q "] is submitted with the text [" Q "], not ["Q"]. *)
Lemma text_field_not_trimmed :
  let q := mkQuestion (js " Q ") input None None (Some (js "a")) None in
  let d := mkForm (js "T") [q] in
  reachable d
  ∧ validate d = []
  ∧ handleSubmit d = Some (onSubmit_payload d)
  ∧ payload_text <$> payload_questions (onSubmit_payload d) = [js " Q "]
  ∧ trim (text q) = js "Q"
  ∧ payload_text <$> payload_questions (onSubmit_payload d) ≠ [trim (text q)].
Proof.
  split.
  { exact (reachable_by
             [EditTitle (js "T"); EditText 0 (js " Q ");
              EditCorrectInput 0 (js "a")]). }
  vm_compute. split_and!; try reflexivity. discriminate.
Qed.

(** C5, amended: the text of every question reaches the corresponding
    submission record unchanged; for an input question [correctAnswer] is
    the trimmed [correctInput], and for a checkbox question the options are
    the draft's options, each trimmed. *)
Theorem submission_text_fields (d : CreateQuizForm) (i : nat) (q : Question) :
  questions d !! i = Some q →
  ∃ p : QuizQuestionPayload,
    payload_questions (onSubmit_payload d) !! i = Some p
    ∧ payload_text p = text q
    ∧ (type q = input →
       p = InputQuizQuestionPayload (text q)
             (trim (default [] (correctInput q))))
    ∧ (type q = checkbox →
       ∃ answer,
         p = CheckboxQuizQuestionPayload (text q)
               (trim <$> default [] (options q)) answer).
Proof.
  intros Hi. exists (questionPayload q). split_and!.
  - by rewrite onSubmit_payload_lookup, Hi.
  - apply questionPayload_text.
  - apply questionPayload_input.
  - intros Ht. rewrite (questionPayload_checkbox q Ht). eauto.
Qed.

Lemma submission_text_fields_witness :
  ∃ p : QuizQuestionPayload,
    payload_questions
      (onSubmit_payload
         (mkForm (js "T")
            [mkQuestion (js " Q ") input None None (Some (js " a ")) None])) !! 0
    = Some p
    ∧ payload_text p = js " Q "
    ∧ (chosen input = input →
       p = InputQuizQuestionPayload (js " Q ")
             (trim (default [] (Some (js " a ")))))
    ∧ (chosen input = checkbox →
       ∃ answer,
         p = CheckboxQuizQuestionPayload (js " Q ")
               (trim <$> default [] None) answer).
Proof.
  apply (submission_text_fields
           (mkForm (js "T")
              [mkQuestion (js " Q ") input None None (Some (js " a ")) None])
           0
           (mkQuestion (js " Q ") input None None (Some (js " a ")) None)).
  reflexivity.
Defined.

(** ** Validation and submission *)

(** Parsing only trims the options, which the mapping trims anyway. *)
Lemma questionPayload_parsed (q : Question) :
  questionPayload (questionSchema_parse q).2 = questionPayload q.
Proof.
  assert (Hopts : trim <$> default [] (options (questionSchema_parse q).2)
                  = trim <$> default [] (options q)).
  { unfold questionSchema_parse. cbn [snd options].
    destruct (options q) as [opts|]; cbn [fst snd default]; [|done].
    unfold options_parse, string_trim_min1, id. cbn [snd].
    rewrite <- list_fmap_compose.
    rewrite (list_fmap_ext (trim ∘ (λ o, trim o)) trim opts); [done|].
    intros ? o _. apply trim_idemp. }
  unfold questionPayload. rewrite Hopts. reflexivity.
Qed.

Lemma onSubmit_payload_parsed (d : CreateQuizForm) :
  onSubmit_payload (createQuizSchema_parse d).2 = onSubmit_payload d.
Proof.
  unfold onSubmit_payload, createQuizSchema_parse, questions_parse.
  cbn [snd title questions]. f_equal.
  rewrite <- list_fmap_compose. apply list_fmap_ext.
  intros ? q _. apply questionPayload_parsed.
Qed.

Lemma handleSubmit_valid (d : CreateQuizForm) :
  validate d = [] → handleSubmit d = Some (onSubmit_payload d).
Proof.
  intros Hv. unfold handleSubmit, safeParse. rewrite Hv.
  by rewrite onSubmit_payload_parsed.
Qed.

Lemma handleSubmit_invalid (d : CreateQuizForm) :
  validate d ≠ [] → handleSubmit d = None.
Proof.
  intros Hv. unfold handleSubmit, safeParse. by destruct (validate d).
Qed.

Lemma valid_question_payload_ok (q : Question) :
  questionSchema_issues q = [] → question_payload_ok (questionPayload q).
Proof.
  intros Hv. pose proof Hv as (_ & _ & _ & Hty)%questionSchema_issues_nil.
  destruct (type q) as [[]|] eqn:Ht; [| | |done].
  - by rewrite (questionPayload_boolean q Ht).
  - rewrite (questionPayload_input q Ht). apply trim_idemp.
  - rewrite (questionPayload_checkbox q Ht).
    destruct (valid_checkbox q Ht Hv) as (opts & flags & -> & -> & _ & Hne & _).
    simpl. split; [|apply flagged_sublist].
    apply Forall_fmap. eapply Forall_impl; [exact Hne|].
    intros o Ho. split; [apply trim_idemp|done].
Qed.

Lemma valid_submission_ok (d : CreateQuizForm) :
  validate d = [] → submission_ok (onSubmit_payload d).
Proof.
  intros (_ & _ & Hall)%validate_nil.
  unfold submission_ok, onSubmit_payload. simpl.
  apply Forall_fmap. eapply Forall_impl; [exact Hall|].
  intros q Hq. by apply valid_question_payload_ok.
Qed.

(** C1, as the specification states it, fails: the mapping of [onSubmit]
    never fails, and it maps some drafts that validation rejects to
    well-shaped submissions.  A checkbox question with one option and no
    flag set, which an editing session reaches, is rejected, and mapped to a
    record with that option and an empty answer; a boolean question with no
    answer selected is rejected, and mapped to a record with the two options
    and [correctAnswer: false]. *)
Lemma invalid_draft_maps_to_well_shaped_submission :
  let d := mkForm (js "Geo")
             [mkQuestion (js "Q") checkbox (Some [js "a"]) None None
                (Some [false])] in
  let d' := mkForm (js "Geo") [mkQuestion (js "Q") boolean None None None None] in
  reachable d
  ∧ validate d
    = [mkIssue [Key "questions"; Idx 0; Key "correctCheckbox"]
         "Select at least one correct option"]
  ∧ onSubmit_payload d
    = mkPayload (js "Geo")
        [CheckboxQuizQuestionPayload (js "Q") [js "a"] []]
  ∧ submission_ok (onSubmit_payload d)
  ∧ ¬ (validate d = [] ↔ submission_ok (onSubmit_payload d))
  ∧ validate d'
    = [mkIssue [Key "questions"; Idx 0; Key "correctBoolean"]
         "Select the correct answer"]
  ∧ onSubmit_payload d'
    = mkPayload (js "Geo")
        [BooleanQuizQuestionPayload (js "Q") (Some [js "True"; js "False"])
           false]
  ∧ submission_ok (onSubmit_payload d')
  ∧ ¬ (validate d' = [] ↔ submission_ok (onSubmit_payload d')).
Proof.
  assert (Hok : submission_ok
                  (onSubmit_payload
                     (mkForm (js "Geo")
                        [mkQuestion (js "Q") checkbox (Some [js "a"]) None None
                           (Some [false])]))).
  { constructor; [|constructor]. split; [|apply sublist_nil_l].
    constructor; [|constructor]. split; [reflexivity|discriminate]. }
  assert (Hok' : submission_ok
                   (onSubmit_payload
                      (mkForm (js "Geo")
                         [mkQuestion (js "Q") boolean None None None None]))).
  { repeat constructor. }
  split_and!; try reflexivity; try done.
  - exact (reachable_by
             [EditTitle (js "Geo"); EditText 0 (js "Q"); ChangeType 0 checkbox;
              EditOption 0 0 (js "a")]).
  - intros [_ H]. by specialize (H Hok).
  - intros [_ H]. by specialize (H Hok').
Qed.

(** C1, amended: a draft passes validation if and only if submitting the
    form, which runs [onSubmit] only after the schema accepted the values,
    yields a submission, and that submission has the shape of section 3;
    the mapping alone is total, and on a draft that passes validation it
    yields a well-shaped submission. *)
Theorem validate_iff_submitted (d : CreateQuizForm) :
  (validate d = [] ↔ ∃ s, handleSubmit d = Some s ∧ submission_ok s)
  ∧ (validate d = [] → submission_ok (onSubmit_payload d)).
Proof.
  split; [split|].
  - intros Hv. exists (onSubmit_payload d).
    split; [by apply handleSubmit_valid|by apply valid_submission_ok].
  - intros (s & Hs & _). destruct (validate d) as [|i l] eqn:Hv; [done|].
    rewrite handleSubmit_invalid in Hs; [done|]. by rewrite Hv.
  - apply valid_submission_ok.
Qed.

Lemma validate_iff_submitted_witness :
  submission_ok
    (onSubmit_payload
       (mkForm (js "Colours")
          [mkQuestion (js "Primary?") checkbox
             (Some [js "Red"; js " Green"; js "Blue "]) None None
             (Some [true; false; true]);
           mkQuestion (js "Sky is blue") boolean None (Some str_true) None None;
           mkQuestion (js "Capital") input None None (Some (js " Paris ")) None])).
Proof.
  apply (proj2 (validate_iff_submitted
                  (mkForm (js "Colours")
                     [mkQuestion (js "Primary?") checkbox
                        (Some [js "Red"; js " Green"; js "Blue "]) None None
                        (Some [true; false; true]);
                      mkQuestion (js "Sky is blue") boolean None (Some str_true)
                        None None;
                      mkQuestion (js "Capital") input None None
                        (Some (js " Paris ")) None]))).
  reflexivity.
Defined.

(** ** What validation reports *)


Lemma superRefine_paths (q : Question) (p : Path) :
  p ∈ issue_path <$> superRefine q ↔
    (type q = boolean ∧ correctBoolean q = None ∧ p = [Key "correctBoolean"])
    ∨ (type q = input ∧ trim (default [] (correctInput q)) = []
       ∧ p = [Key "correctInput"])
    ∨ (type q = checkbox ∧ default [] (options q) = [] ∧ p = [Key "options"])
    ∨ (type q = checkbox
       ∧ (length (default [] (correctCheckbox q))
            ≠ length (default [] (options q))
          ∨ some_Boolean (default [] (correctCheckbox q)) = false)
       ∧ p = [Key "correctCheckbox"]).
Proof.
  unfold superRefine. destruct (type q) as [[]|] eqn:Ht; simpl.
  - destruct (correctBoolean q); simpl.
    + rewrite elem_of_nil. intuition (simplify_eq; first [done | lia | congruence]).
    + rewrite list_elem_of_singleton. intuition (simplify_eq; first [done | lia | congruence]).
  - destruct (correctInput q) as [[|c s]|]; simpl.
    + rewrite list_elem_of_singleton. intuition (simplify_eq; first [done | lia | congruence]).
    + destruct (trim (c :: s)) eqn:Htrim; simpl.
      * rewrite list_elem_of_singleton. intuition (simplify_eq; first [done | lia | congruence]).
      * rewrite elem_of_nil. intuition (simplify_eq; first [done | lia | congruence]).
    + rewrite list_elem_of_singleton. intuition (simplify_eq; first [done | lia | congruence]).
  - destruct (options q) as [[|o os]|], (correctCheckbox q) as [flags|]; simpl;
      try destruct (Nat.eqb_spec (length flags) 0); simpl;
      try destruct (Nat.eqb_spec (length flags) (S (length os))); simpl;
      try destruct (some_Boolean flags) eqn:Hsome; simpl;
      rewrite ?elem_of_cons, ?elem_of_nil; intuition (simplify_eq; first [done | lia | congruence]).
  - rewrite elem_of_nil. intuition (simplify_eq; first [done | lia | congruence]).
Qed.

Lemma paths_under (s : PathSegment) (l : list ZodIssue) (p : Path) :
  p ∈ issue_path <$> (under s <$> l) ↔
    ∃ p', p' ∈ issue_path <$> l ∧ p = s :: p'.
Proof.
  rewrite <- list_fmap_compose, !list_elem_of_fmap. split.
  - intros (i & -> & Hi). exists (issue_path i). split; [|done].
    apply list_elem_of_fmap. eauto.
  - intros (p' & (i & -> & Hi)%list_elem_of_fmap & ->). eauto.
Qed.

Lemma paths_min1 message (s : jsstring) (p : Path) :
  p ∈ issue_path <$> string_min1 message s ↔ s = [] ∧ p = [].
Proof.
  unfold string_min1. destruct s; simpl.
  - rewrite list_elem_of_singleton. intuition.
  - rewrite elem_of_nil. intuition discriminate.
Qed.

Lemma paths_join_imap {A} (f : nat → A → list ZodIssue) (l : list A) (p : Path) :
  p ∈ issue_path <$> mjoin (imap (λ i x, under (Idx i) <$> f i x) l) ↔
    ∃ i x p', l !! i = Some x ∧ p' ∈ issue_path <$> f i x ∧ p = Idx i :: p'.
Proof.
  rewrite list_elem_of_fmap. split.
  - intros (iss & -> & (l' & Hiss & Hl')%list_elem_of_join).
    apply elem_of_lookup_imap in Hl' as (i & x & -> & Hx).
    assert (Hp : issue_path iss ∈ issue_path <$> (under (Idx i) <$> f i x)).
    { apply list_elem_of_fmap. eauto. }
    apply paths_under in Hp as (p' & Hp' & ->). eauto 6.
  - intros (i & x & p' & Hx & Hp' & ->).
    assert (Hp : (Idx i :: p') ∈ issue_path <$> (under (Idx i) <$> f i x)).
    { apply paths_under. eauto. }
    apply list_elem_of_fmap in Hp as (iss & -> & Hiss).
    exists iss. split; [done|]. apply list_elem_of_join.
    exists (under (Idx i) <$> f i x). split; [done|].
    apply elem_of_lookup_imap. eauto.
Qed.

Lemma options_paths (opts : list jsstring) (p : Path) :
  p ∈ issue_path <$> (options_parse opts).1 ↔
    ∃ j o, opts !! j = Some o ∧ trim o = [] ∧ p = [Idx j].
Proof.
  unfold options_parse, string_trim_min1. cbn [fst].
  rewrite (paths_join_imap (λ _ o, string_min1 "Option cannot be empty" (trim o))).
  split.
  - intros (j & o & p' & Ho & (Hb & ->)%paths_min1 & ->). eauto.
  - intros (j & o & Ho & Hb & ->). exists j, o, []. split_and!; [done| |done].
    by apply paths_min1.
Qed.


Lemma paths_enum (v : TypeValue) (p : Path) :
  p ∈ issue_path <$> enum_questionTypes v ↔ v = not_chosen ∧ p = [].
Proof.
  destruct v; simpl.
  - rewrite elem_of_nil. intuition discriminate.
  - rewrite list_elem_of_singleton. intuition.
Qed.

(** The paths reported for one question. *)
Lemma question_paths (q : Question) (p : Path) :
  p ∈ issue_path <$> questionSchema_issues q ↔
    listed_question_violation q p ∨ blank_option q p ∨ type_not_chosen q p.
Proof.
  rewrite questionSchema_issues_eq.
  rewrite !fmap_app, !elem_of_app, !paths_under, superRefine_paths.
  split.
  - intros [(p' & (Ht & ->)%paths_min1 & ->)
           |[(p' & (Hty & ->)%paths_enum & ->)|[(p' & Hp' & ->)|Hr]]].
    + left. by constructor.
    + right; right. by constructor.
    + right; left. destruct (options q) as [opts|] eqn:Ho.
      * apply options_paths in Hp' as (j & o & Hj & Hb & ->).
        by econstructor.
      * by apply elem_of_nil in Hp'.
    + left. destruct Hr as [(? & ? & ->)|[(? & ? & ->)|[(? & ? & ->)|(? & [?|?] & ->)]]].
      * by apply boolean_not_selected.
      * by apply input_blank.
      * by apply checkbox_no_option.
      * by apply checkbox_flags_length.
      * by apply checkbox_no_true_flag.
  - intros [Hl|[Hb|Hty]].
    + destruct Hl.
      * left. exists []. split; [by apply paths_min1|done].
      * do 3 right. left. done.
      * do 3 right. right; left. done.
      * do 3 right. right; right; left. done.
      * do 3 right. right; right; right. split_and!; [done|by left|done].
      * do 3 right. right; right; right. split_and!; [done|by right|done].
    + destruct Hb as [opts j o Ho Hj Hb]. right; right; left.
      exists [Idx j]. split; [|done]. rewrite Ho.
      apply options_paths. eauto.
    + destruct Hty as [Hty]. right; left. exists []. split; [|done].
      by apply paths_enum.
Qed.

(** The paths reported for a draft: each is a violation, and each violation
    is reported. *)
Lemma error_paths_sound (d : CreateQuizForm) (p : Path) :
  p ∈ error_paths d →
  draft_violation
    (λ q p, listed_question_violation q p ∨ blank_option q p
            ∨ type_not_chosen q p) d p.
Proof.
  unfold error_paths, validate, createQuizSchema_parse, questions_parse.
  cbn [fst]. rewrite fmap_app, elem_of_app, !paths_under.
  intros [(p' & (Ht & ->)%paths_min1 & ->)|(p' & Hp' & ->)].
  - by apply title_empty.
  - rewrite fmap_app, elem_of_app in Hp'. destruct Hp' as [Hp'|Hp'].
    + destruct (questions d) eqn:Hq; simpl in Hp';
        [|by apply elem_of_nil in Hp'].
      apply list_elem_of_singleton in Hp' as ->. by apply no_question.
    + apply (paths_join_imap (λ _ q, (questionSchema_parse q).1)) in Hp'
        as (i & q & p'' & Hi & Hp'' & ->).
      apply question_violation with q; [done|]. by apply question_paths.
Qed.

Lemma error_paths_complete (d : CreateQuizForm) (p : Path) :
  draft_violation
    (λ q p, listed_question_violation q p ∨ blank_option q p
            ∨ type_not_chosen q p) d p →
  p ∈ error_paths d.
Proof.
  unfold error_paths, validate, createQuizSchema_parse, questions_parse.
  cbn [fst]. rewrite fmap_app, elem_of_app, !paths_under.
  intros [Ht|Hq|i q p' Hi Hv].
  - left. exists []. split; [by apply paths_min1|done].
  - right. exists []. split; [|done]. rewrite Hq. simpl. left.
  - right. exists (Idx i :: p'). split; [|done].
    rewrite fmap_app, elem_of_app. right.
    apply (paths_join_imap (λ _ q, (questionSchema_parse q).1)).
    exists i, q, p'. split_and!; [done| |done]. by apply question_paths.
Qed.

(** C2, as the specification states it, fails: validation also reports an
    option that is blank once trimmed, and a type that is none of the three
    question types, which are none of the listed violations.  A checkbox
    question with the single option [" "], flagged correct, has an error at
    [questions[0].options[0]]; a question whose type was set to "Select
    type" has an error at [questions[0].type]. *)
Lemma blank_option_is_reported :
  let d := mkForm (js "T")
             [mkQuestion (js "Q") checkbox (Some [js " "]) None None
                (Some [true])] in
  let d' := mkForm (js "T")
              [mkQuestion (js "Q") not_chosen None None (Some (js "a")) None] in
  reachable d
  ∧ validate d
    = [mkIssue [Key "questions"; Idx 0; Key "options"; Idx 0]
         "Option cannot be empty"]
  ∧ ¬ draft_violation listed_question_violation d
        [Key "questions"; Idx 0; Key "options"; Idx 0]
  ∧ ¬ (∀ p, p ∈ error_paths d ↔ draft_violation listed_question_violation d p)
  ∧ reachable d'
  ∧ error_paths d' = [[Key "questions"; Idx 0; Key "type"]]
  ∧ ¬ draft_violation listed_question_violation d'
        [Key "questions"; Idx 0; Key "type"]
  ∧ ¬ (∀ p, p ∈ error_paths d' ↔ draft_violation listed_question_violation d' p).
Proof.
  assert (Hno : ¬ draft_violation listed_question_violation
                    (mkForm (js "T")
                       [mkQuestion (js "Q") checkbox (Some [js " "]) None None
                          (Some [true])])
                    [Key "questions"; Idx 0; Key "options"; Idx 0]).
  { intros H. inversion H as [| |i q p Hq Hv]. inversion Hv. }
  assert (Hno' : ¬ draft_violation listed_question_violation
                     (mkForm (js "T")
                        [mkQuestion (js "Q") not_chosen None None
                           (Some (js "a")) None])
                     [Key "questions"; Idx 0; Key "type"]).
  { intros H. inversion H as [| |i q p Hq Hv]. inversion Hv. }
  split_and!.
  - exact (reachable_by
             [EditTitle (js "T"); EditText 0 (js "Q"); ChangeType 0 checkbox;
              EditOption 0 0 (js " "); EditFlag 0 0 true]).
  - reflexivity.
  - exact Hno.
  - intros H. apply Hno, H. unfold error_paths. vm_compute. left.
  - exact (reachable_by
             [EditTitle (js "T"); EditText 0 (js "Q");
              EditCorrectInput 0 (js "a"); ChangeType 0 not_chosen]).
  - reflexivity.
  - exact Hno'.
  - intros H. apply Hno', H. unfold error_paths. vm_compute. left.
Qed.

(** C2, amended: validation reports an error at a field path exactly when
    that path is one of: the title when it is empty, [questions] when there
    is no question, and for every question its text when empty, the
    type-specific violations (boolean: no [correctBoolean]; input:
    [correctInput] blank once trimmed; checkbox: no option, flags of another
    length than the options, no true flag), each option, of a question of
    any type, that is blank once trimmed, and its type when it is none of
    the three question types.  All of them are collected. *)
Theorem validate_reports_exactly (d : CreateQuizForm) (p : Path) :
  p ∈ error_paths d ↔
    draft_violation
      (λ q p, listed_question_violation q p ∨ blank_option q p
              ∨ type_not_chosen q p) d p.
Proof.
  split.
  - apply error_paths_sound.
  - apply error_paths_complete.
Qed.

Lemma validate_reports_exactly_witness :
  draft_violation
    (λ q p, listed_question_violation q p ∨ blank_option q p
            ∨ type_not_chosen q p)
    (mkForm (js "")
       [mkQuestion (js "") checkbox (Some [js " "]) None None None;
        mkQuestion (js "Q") not_chosen None None None None])
    [Key "questions"; Idx 0; Key "correctCheckbox"]
  ∧ draft_violation
      (λ q p, listed_question_violation q p ∨ blank_option q p
              ∨ type_not_chosen q p)
      (mkForm (js "")
         [mkQuestion (js "") checkbox (Some [js " "]) None None None;
          mkQuestion (js "Q") not_chosen None None None None])
      [Key "questions"; Idx 1; Key "type"].
Proof.
  split.
  - apply (proj1 (validate_reports_exactly
                    (mkForm (js "")
                       [mkQuestion (js "") checkbox (Some [js " "]) None None
                          None;
                        mkQuestion (js "Q") not_chosen None None None None])
                    [Key "questions"; Idx 0; Key "correctCheckbox"])).
    vm_compute. do 3 right. left.
  - apply (proj1 (validate_reports_exactly
                    (mkForm (js "")
                       [mkQuestion (js "") checkbox (Some [js " "]) None None
                          None;
                        mkQuestion (js "Q") not_chosen None None None None])
                    [Key "questions"; Idx 1; Key "type"])).
    vm_compute. do 4 right. left.
Defined.

(** ** The handlers, question by question *)

Lemma options_at_lookup (d : CreateQuizForm) (i : nat) (q : Question) :
  questions d !! i = Some q → options_at d i = default [] (options q).
Proof. unfold options_at. by intros ->. Qed.

Lemma correctCheckbox_at_lookup (d : CreateQuizForm) (i : nat) (q : Question) :
  questions d !! i = Some q →
  correctCheckbox_at d i = default [] (correctCheckbox q).
Proof. unfold correctCheckbox_at. by intros ->. Qed.

Lemma addOption_questions (i : nat) (d : CreateQuizForm) :
  questions (addOption i d) = alter question_add_option i (questions d).
Proof.
  unfold addOption, setValue_correctCheckbox, setValue_options.
  cbn [questions]. rewrite list_alter_alter_eq.
  apply list_alter_ext; [|done]. intros q Hq. unfold question_add_option.
  by rewrite (options_at_lookup d i q Hq), (correctCheckbox_at_lookup d i q Hq).
Qed.

Lemma removeOption_questions (i j : nat) (d : CreateQuizForm) :
  questions (removeOption i j d)
  = alter (question_remove_option j) i (questions d).
Proof.
  unfold removeOption, setValue_correctCheckbox, setValue_options.
  cbn [questions]. rewrite list_alter_alter_eq, !filter_idx_delete.
  apply list_alter_ext; [|done]. intros q Hq. unfold question_remove_option.
  by rewrite (options_at_lookup d i q Hq), (correctCheckbox_at_lookup d i q Hq).
Qed.

Lemma change_type_questions (i : nat) (t : TypeValue) (d : CreateQuizForm) :
  questions (change_type i t d)
  = alter (question_change_type t) i (questions d).
Proof.
  unfold change_type, handleTypeChange.
  destruct t as [[]|];
    unfold setValue_correctBoolean, setValue_correctInput,
      setValue_correctCheckbox, setValue_options, setValue_type;
    cbn [questions]; rewrite ?list_alter_alter_eq;
    apply list_alter_ext; try done; intros q Hq; cbn.
  unfold options_at, correctCheckbox_at. cbn [questions].
  rewrite list_lookup_alter_eq, Hq. cbn.
  by destruct (options q) as [[|o os]|].
Qed.

Lemma alter_lookup_insert {A} (f : A → A) (l : list A) (i : nat) (x : A) :
  l !! i = Some x → alter f i l = <[i:=f x]> l.
Proof.
  revert i. induction l as [|y l IH]; intros [|i] Hi; simpl in *; try done.
  - by inversion Hi.
  - f_equal. by apply IH.
Qed.

Lemma default_nonempty_or_undefined {A} (l : list A) :
  default [] (nonempty_or_undefined l) = l.
Proof. by destruct l. Qed.

Lemma length_delete_eq {A B} (l : list A) (k : list B) (j : nat) :
  length l = length k → length (delete j l) = length (delete j k).
Proof.
  revert k j. induction l as [|x l IH]; intros [|y k] j Hlen; try done.
  destruct j as [|j]; simpl in *; [lia|]. f_equal. apply IH. lia.
Qed.

Lemma question_add_option_aligned (q : Question) :
  aligned q → aligned (question_add_option q).
Proof.
  unfold aligned, question_add_option. simpl. intros Hq.
  rewrite !length_app. simpl. lia.
Qed.

Lemma question_remove_option_aligned (j : nat) (q : Question) :
  aligned q → aligned (question_remove_option j q).
Proof.
  unfold aligned, question_remove_option. simpl. intros Hq.
  rewrite !default_nonempty_or_undefined. by apply length_delete_eq.
Qed.

Lemma question_change_type_aligned (q : Question) :
  aligned (question_change_type checkbox q).
Proof. unfold aligned, question_change_type. simpl. by rewrite length_imap. Qed.

Lemma option_call_aligned (d : CreateQuizForm) (a : Action) :
  is_option_call a = true →
  checkboxes_aligned d → checkboxes_aligned (step d a).
Proof.
  unfold checkboxes_aligned.
  destruct a as [| | |i|i j| | | | | |]; try done; intros _ Hd; cbn [step].
  - rewrite addOption_questions. apply Forall_alter; [done|].
    intros q _ Hq Ht. apply question_add_option_aligned. by apply Hq.
  - rewrite removeOption_questions. apply Forall_alter; [done|].
    intros q _ Hq Ht. apply question_remove_option_aligned. by apply Hq.
Qed.

(** C6: in a draft whose checkbox questions have as many flags as options,
    every call of a sequence of [add_option] and [remove_option] calls
    leaves a draft whose checkbox questions have as many flags as options;
    [add_option] appends [""] to the options and [false] to the flags of the
    question, and [remove_option] removes the entries at the same index from
    both: what is left of each are the entries before and after that index,
    stored as absent when nothing is left. *)
Theorem options_and_flags_stay_aligned :
  (∀ (d : CreateQuizForm) (calls : list Action),
     checkboxes_aligned d → forallb is_option_call calls = true →
     Forall checkboxes_aligned (states_after d calls))
  ∧ (∀ (d : CreateQuizForm) (i : nat) (q : Question),
       questions d !! i = Some q →
       questions (addOption i d)
       = <[i := mkQuestion (text q) (type q)
                  (Some (default [] (options q) ++ [js ""]))
                  (correctBoolean q) (correctInput q)
                  (Some (default [] (correctCheckbox q) ++ [false]))]>
           (questions d))
  ∧ (∀ (d : CreateQuizForm) (i j : nat) (q : Question),
       questions d !! i = Some q →
       questions (removeOption i j d)
       = <[i := mkQuestion (text q) (type q)
                  (match take j (default [] (options q))
                         ++ drop (S j) (default [] (options q)) with
                   | [] => None
                   | o :: os => Some (o :: os)
                   end)
                  (correctBoolean q) (correctInput q)
                  (match take j (default [] (correctCheckbox q))
                         ++ drop (S j) (default [] (correctCheckbox q)) with
                   | [] => None
                   | b :: bs => Some (b :: bs)
                   end)]>
           (questions d)).
Proof.
  split_and!.
  - intros d calls. revert d.
    induction calls as [|a calls IH]; intros d Hd Hcalls; simpl; [constructor|].
    simpl in Hcalls. apply andb_true_iff in Hcalls as [Ha Hcalls].
    pose proof (option_call_aligned d a Ha Hd) as Hstep.
    constructor; [done|]. by apply IH.
  - intros d i q Hq. rewrite addOption_questions.
    by rewrite (alter_lookup_insert _ _ _ q Hq).
  - intros d i j q Hq. rewrite removeOption_questions.
    rewrite (alter_lookup_insert _ _ _ q Hq). unfold question_remove_option.
    rewrite !delete_take_drop. do 2 f_equal.
    + by destruct (take j (default [] (options q))
                     ++ drop (S j) (default [] (options q))).
    + by destruct (take j (default [] (correctCheckbox q))
                     ++ drop (S j) (default [] (correctCheckbox q))).
Qed.

Lemma options_and_flags_stay_aligned_witness :
  Forall checkboxes_aligned
    (states_after
       (mkForm (js "T")
          [mkQuestion (js "Q") checkbox (Some [js "a"]) None None (Some [true])])
       [AddOption 0; RemoveOption 0 0; RemoveOption 0 0; AddOption 0])
  ∧ questions
      (removeOption 0 1
         (mkForm (js "T")
            [mkQuestion (js "Q") checkbox (Some [js "a"; js "b"; js "c"]) None
               None (Some [true; false; true])]))
    = [mkQuestion (js "Q") checkbox (Some [js "a"; js "c"]) None None
         (Some [true; true])]
  ∧ questions
      (removeOption 0 0
         (mkForm (js "T")
            [mkQuestion (js "Q") checkbox (Some [js "a"]) None None
               (Some [true])]))
    = [mkQuestion (js "Q") checkbox None None None None].
Proof.
  split; [|split].
  - apply (proj1 options_and_flags_stay_aligned).
    + repeat constructor.
    + reflexivity.
  - apply (proj2 (proj2 options_and_flags_stay_aligned)
             (mkForm (js "T")
                [mkQuestion (js "Q") checkbox (Some [js "a"; js "b"; js "c"])
                   None None (Some [true; false; true])])
             0 1
             (mkQuestion (js "Q") checkbox (Some [js "a"; js "b"; js "c"]) None
                None (Some [true; false; true]))).
    reflexivity.
  - apply (proj2 (proj2 options_and_flags_stay_aligned)
             (mkForm (js "T")
                [mkQuestion (js "Q") checkbox (Some [js "a"]) None None
                   (Some [true])])
             0 0
             (mkQuestion (js "Q") checkbox (Some [js "a"]) None None
                (Some [true]))).
    reflexivity.
Defined.

(** ** Changing the type of a question *)

(** C7, as the specification states it, fails: switching to input clears
    the options, and switching back to checkbox seeds a single empty option.
    The options Red, Green do not survive checkbox, input, checkbox. *)
Lemma type_round_trip_loses_options :
  let q := mkQuestion (js "Colours") checkbox (Some [js "Red"; js "Green"])
             None None (Some [true; false]) in
  let d := mkForm (js "T") [q] in
  let d' := change_type 0 checkbox (change_type 0 input (change_type 0 checkbox d)) in
  reachable d
  ∧ questions d'
    = [mkQuestion (js "Colours") checkbox (Some [js ""]) None None (Some [false])]
  ∧ ¬ (∃ q', questions d' !! 0 = Some q' ∧ options q' = options q).
Proof.
  split.
  { exact (reachable_by
             [EditTitle (js "T"); EditText 0 (js "Colours");
              ChangeType 0 checkbox; EditOption 0 0 (js "Red"); AddOption 0;
              EditOption 0 1 (js "Green"); EditFlag 0 0 true]). }
  split; [reflexivity|].
  intros (q' & Hq' & Ho). vm_compute in Hq'. inversion Hq'; subst q'.
  vm_compute in Ho. discriminate.
Qed.

(** C7, amended: switching a question to checkbox keeps the options it has,
    with flags aligned to them by index (the flag it had at an index, else
    false); switching it to input clears options and flags; so after
    checkbox, input, checkbox the question has the single option [""] with
    the flag false, whatever its options were, and its text is the original
    one. *)
Theorem type_round_trip (d : CreateQuizForm) (i : nat) (q : Question) :
  questions d !! i = Some q →
  (∀ opts, options q = Some opts → opts ≠ [] →
     questions (change_type i checkbox d)
     = <[i := mkQuestion (text q) checkbox (Some opts) None None
                (Some (imap (λ idx _,
                               default false
                                 (default [] (correctCheckbox q) !! idx))
                         opts))]>
         (questions d))
  ∧ questions (change_type i input (change_type i checkbox d))
    = <[i := mkQuestion (text q) input None None (Some (js "")) None]>
        (questions d)
  ∧ questions
      (change_type i checkbox (change_type i input (change_type i checkbox d)))
    = <[i := mkQuestion (text q) checkbox (Some [js ""]) None None
               (Some [false])]>
        (questions d).
Proof.
  intros Hq. split_and!.
  - intros opts Ho Hne. rewrite change_type_questions.
    rewrite (alter_lookup_insert _ _ _ q Hq). f_equal.
    unfold question_change_type. rewrite Ho. by destruct opts.
  - rewrite !change_type_questions, list_alter_alter_eq.
    by rewrite (alter_lookup_insert _ _ _ q Hq).
  - rewrite !change_type_questions, !list_alter_alter_eq.
    by rewrite (alter_lookup_insert _ _ _ q Hq).
Qed.

Lemma type_round_trip_witness :
  (∀ opts, Some [js "Red"; js "Green"] = Some opts → opts ≠ [] →
     questions
       (change_type 0 checkbox
          (mkForm (js "T")
             [mkQuestion (js "Colours") input (Some [js "Red"; js "Green"])
                None None (Some [true])]))
     = <[0 := mkQuestion (js "Colours") checkbox (Some opts) None None
                (Some (imap (λ idx _,
                               default false (default [] (Some [true]) !! idx))
                         opts))]>
         [mkQuestion (js "Colours") input (Some [js "Red"; js "Green"])
            None None (Some [true])])
  ∧ questions
      (change_type 0 input
         (change_type 0 checkbox
            (mkForm (js "T")
               [mkQuestion (js "Colours") input (Some [js "Red"; js "Green"])
                  None None (Some [true])])))
    = <[0 := mkQuestion (js "Colours") input None None (Some (js "")) None]>
        [mkQuestion (js "Colours") input (Some [js "Red"; js "Green"])
           None None (Some [true])]
  ∧ questions
      (change_type 0 checkbox
         (change_type 0 input
            (change_type 0 checkbox
               (mkForm (js "T")
                  [mkQuestion (js "Colours") input (Some [js "Red"; js "Green"])
                     None None (Some [true])]))))
    = <[0 := mkQuestion (js "Colours") checkbox (Some [js ""]) None None
               (Some [false])]>
        [mkQuestion (js "Colours") input (Some [js "Red"; js "Green"])
           None None (Some [true])].
Proof.
  apply (type_round_trip
           (mkForm (js "T")
              [mkQuestion (js "Colours") input (Some [js "Red"; js "Green"])
                 None None (Some [true])])
           0
           (mkQuestion (js "Colours") input (Some [js "Red"; js "Green"])
              None None (Some [true]))).
  reflexivity.
Defined.

(** ** Removing a question *)

Lemma length_delete_ge {A} (l : list A) (i : nat) :
  length l - 1 ≤ length (delete i l).
Proof.
  revert i. induction l as [|x l IH]; intros [|i]; simpl; try lia.
  specialize (IH i). lia.
Qed.

Lemma step_length_questions (d : CreateQuizForm) (a : Action) :
  1 ≤ length (questions d) → 1 ≤ length (questions (step d a)).
Proof.
  intros Hd. destruct a as [|i|i t|i|i j|v|i v|i j v|i j v|i v|i v]; cbn [step].
  - unfold addQuestion. cbn [questions]. rewrite length_app. lia.
  - unfold remove_question.
    destruct (Nat.eqb_spec (length (questions d)) 1); [done|].
    cbn [questions]. pose proof (length_delete_ge (questions d) i). lia.
  - by rewrite change_type_questions, length_alter.
  - by rewrite addOption_questions, length_alter.
  - by rewrite removeOption_questions, length_alter.
  - done.
  - unfold setValue_text. cbn [questions]. by rewrite length_alter.
  - unfold edit_option. cbn [questions]. by rewrite length_alter.
  - unfold edit_flag. cbn [questions]. by rewrite length_alter.
  - unfold setValue_correctBoolean. cbn [questions]. by rewrite length_alter.
  - unfold setValue_correctInput. cbn [questions]. by rewrite length_alter.
Qed.

(** C8: with more than one question, [remove_question] at an index removes
    the question at that index; with exactly one question it changes
    nothing; so every draft an editing session reaches has at least one
    question. *)
Theorem remove_question_keeps_one :
  (∀ (d : CreateQuizForm) (i : nat),
     1 < length (questions d) → i < length (questions d) →
     title (remove_question i d) = title d
     ∧ questions (remove_question i d)
       = take i (questions d) ++ drop (S i) (questions d)
     ∧ length (questions (remove_question i d)) = length (questions d) - 1)
  ∧ (∀ (d : CreateQuizForm) (i : nat),
       length (questions d) = 1 → remove_question i d = d)
  ∧ (∀ d : CreateQuizForm, reachable d → 1 ≤ length (questions d)).
Proof.
  split_and!.
  - intros d i Hlen Hi. unfold remove_question.
    destruct (Nat.eqb_spec (length (questions d)) 1); [lia|].
    cbn [title questions]. split_and!; [done|apply delete_take_drop|].
    apply length_delete. by apply lookup_lt_is_Some.
  - intros d i Hlen. unfold remove_question. by rewrite Hlen.
  - intros d Hd. induction Hd as [|d a _ IH]; [done|].
    by apply step_length_questions.
Qed.

Lemma remove_question_keeps_one_witness :
  (title (remove_question 0 (addQuestion defaultValues))
   = title (addQuestion defaultValues)
   ∧ questions (remove_question 0 (addQuestion defaultValues))
     = take 0 (questions (addQuestion defaultValues))
       ++ drop 1 (questions (addQuestion defaultValues))
   ∧ length (questions (remove_question 0 (addQuestion defaultValues)))
     = length (questions (addQuestion defaultValues)) - 1)
  ∧ remove_question 0 defaultValues = defaultValues
  ∧ 1 ≤ length (questions (step (step defaultValues AddQuestion)
                             (RemoveQuestion 1))).
Proof.
  split; [|split].
  - apply (proj1 remove_question_keeps_one (addQuestion defaultValues) 0);
      simpl; lia.
  - apply (proj1 (proj2 remove_question_keeps_one) defaultValues 0).
    reflexivity.
  - apply (proj2 (proj2 remove_question_keeps_one)).
    apply reachable_step, reachable_step, reachable_init.
Defined.

(** ** The API helpers *)

Section QuizService.
Context {HostError Body Id : Type}.
Variable API_URL : jsstring.
Variable show_id : Id → jsstring.
Variable JSON_stringify : CreateQuizPayload → jsstring.
Variable fetch : Api.Request → HostError + Api.Response HostError Body.

Lemma helper_outcome {A} (req : Api.Request) (message : string)
    (k : Api.Response HostError Body → Api.Settled HostError A)
    (res : Api.Response HostError Body) :
  fetch req = inr res →
  (∀ r, ∀ m, k r ≠ Api.Rejected (Api.Error m)) →
  let outcome :=
    Api.await (Api.host (fetch req))
      (λ res, if negb (Api.ok res) then Api.Rejected (Api.Error message)
              else k res) in
  (outcome = Api.Rejected (Api.Error message) ↔ Api.ok res = false)
  ∧ (Api.ok res = true → outcome = k res).
Proof.
  intros Hres Hk. cbn zeta. rewrite Hres. cbn [Api.host Api.await].
  destruct (Api.ok res); cbn [negb].
  - split; [|done]. split; [|done]. intros H. by apply Hk in H.
  - split; [done|]. done.
Qed.

Lemma host_not_Error {A} (r : HostError + A) (m : string) :
  Api.host r ≠ Api.Rejected (Api.Error m).
Proof. by destruct r. Qed.

(** C9: given the response of the server, each of the four helpers is
    rejected with its own [Error] exactly when the response is not [ok];
    when it is [ok], [getQuizzes], [getQuiz] and [createQuiz] return what
    [res.json()] gives, the parsed body, and [deleteQuiz] returns
    nothing. *)
Theorem quiz_service_fails_iff_not_ok :
  (∀ res, fetch (Api.getQuizzes_request API_URL) = inr res →
     (Api.getQuizzes API_URL fetch
        = Api.Rejected (Api.Error "Failed to fetch quizzes")
      ↔ Api.ok res = false)
     ∧ (Api.ok res = true →
        Api.getQuizzes API_URL fetch = Api.host (Api.json res)))
  ∧ (∀ id res, fetch (Api.getQuiz_request API_URL show_id id) = inr res →
     (Api.getQuiz API_URL show_id fetch id
        = Api.Rejected (Api.Error "Failed to fetch quiz")
      ↔ Api.ok res = false)
     ∧ (Api.ok res = true →
        Api.getQuiz API_URL show_id fetch id = Api.host (Api.json res)))
  ∧ (∀ data res,
       fetch (Api.createQuiz_request API_URL JSON_stringify data) = inr res →
     (Api.createQuiz API_URL JSON_stringify fetch data
        = Api.Rejected (Api.Error "Failed to create quiz")
      ↔ Api.ok res = false)
     ∧ (Api.ok res = true →
        Api.createQuiz API_URL JSON_stringify fetch data
        = Api.host (Api.json res)))
  ∧ (∀ id res, fetch (Api.deleteQuiz_request API_URL show_id id) = inr res →
     (Api.deleteQuiz API_URL show_id fetch id
        = Api.Rejected (Api.Error "Failed to delete quiz")
      ↔ Api.ok res = false)
     ∧ (Api.ok res = true →
        Api.deleteQuiz API_URL show_id fetch id = Api.Fulfilled ())).
Proof.
  split_and!.
  - intros res Hres.
    apply (helper_outcome _ _ (λ res, Api.host (Api.json res)) res Hres).
    intros r m. apply host_not_Error.
  - intros id res Hres.
    apply (helper_outcome _ _ (λ res, Api.host (Api.json res)) res Hres).
    intros r m. apply host_not_Error.
  - intros data res Hres.
    apply (helper_outcome _ _ (λ res, Api.host (Api.json res)) res Hres).
    intros r m. apply host_not_Error.
  - intros id res Hres.
    apply (helper_outcome _ _ (λ _, Api.Fulfilled ()) res Hres).
    intros r m. done.
Qed.
End QuizService.

Lemma quiz_service_fails_iff_not_ok_witness :
  Api.getQuizzes (HostError:=unit) (Body:=nat) (js "http://localhost:3000")
    (λ _, inr (Api.mkResponse false (inr 7)))
  = Api.Rejected (Api.Error "Failed to fetch quizzes")
  ∧ Api.deleteQuiz (HostError:=unit) (Body:=nat) (Id:=nat)
      (js "http://localhost:3000") (λ _, js "3")
      (λ _, inr (Api.mkResponse true (inl ()))) 3
    = Api.Fulfilled ().
Proof.
  split.
  - destruct (quiz_service_fails_iff_not_ok (HostError:=unit) (Body:=nat) (Id:=nat)
                (js "http://localhost:3000") (λ _, js "3") (λ _, [])
                (λ _, inr (Api.mkResponse false (inr 7))))
      as (Hlist & _).
    destruct (Hlist (Api.mkResponse false (inr 7)) eq_refl) as [Hiff _].
    apply Hiff. reflexivity.
  - destruct (quiz_service_fails_iff_not_ok (HostError:=unit) (Body:=nat) (Id:=nat)
                (js "http://localhost:3000") (λ _, js "3") (λ _, [])
                (λ _, inr (Api.mkResponse true (inl ()))))
      as (_ & _ & _ & Hdelete).
    destruct (Hdelete 3 (Api.mkResponse true (inl ())) eq_refl) as [_ Hok].
    apply Hok. reflexivity.
Defined.

(** ** Whitespace *)

Lemma title_path (d : CreateQuizForm) :
  [Key "title"] ∈ error_paths d ↔ title d = [].
Proof.
  split.
  - intros H%error_paths_sound. by inversion H.
  - intros Ht. by apply error_paths_complete, title_empty.
Qed.

Lemma text_path (d : CreateQuizForm) (i : nat) (q : Question) :
  questions d !! i = Some q →
  [Key "questions"; Idx i; Key "text"] ∈ error_paths d ↔ text q = [].
Proof.
  intros Hq. split.
  - intros H%error_paths_sound. inversion H as [| |i' q' p Hq' Hv]; subst.
    rewrite Hq in Hq'. injection Hq' as <-.
    destruct Hv as [Hv|[Hv|Hv]]; by inversion Hv.
  - intros Ht. apply error_paths_complete, question_violation with q; [done|].
    left. by apply text_empty.
Qed.

(** C10: a title or a question text made only of whitespace passes its
    check, which looks only at the length of the string as typed; an option
    of a checkbox question made only of whitespace is reported, the check
    being made once the option is trimmed; and there is a draft whose title
    is a single space that passes validation and is submitted with that
    title. *)
Theorem whitespace_title_accepted_blank_option_rejected :
  (∀ d : CreateQuizForm,
     title d ≠ [] → Forall (λ c, isWhiteSpace c = true) (title d) →
     [Key "title"] ∉ error_paths d)
  ∧ (∀ (d : CreateQuizForm) (i : nat) (q : Question),
       questions d !! i = Some q →
       text q ≠ [] → Forall (λ c, isWhiteSpace c = true) (text q) →
       [Key "questions"; Idx i; Key "text"] ∉ error_paths d)
  ∧ (∀ (d : CreateQuizForm) (i j : nat) (q : Question) opts o,
       questions d !! i = Some q → type q = checkbox →
       options q = Some opts → opts !! j = Some o →
       Forall (λ c, isWhiteSpace c = true) o →
       [Key "questions"; Idx i; Key "options"; Idx j] ∈ error_paths d)
  ∧ (∃ d : CreateQuizForm,
       title d = js " " ∧ validate d = []
       ∧ ∃ s, handleSubmit d = Some s ∧ payload_title s = js " ").
Proof.
  split_and!.
  - intros d Hne _ H. by apply title_path in H.
  - intros d i q Hq Hne _ H. by apply (text_path d i q Hq) in H.
  - intros d i j q opts o Hq _ Ho Hj Hws.
    apply error_paths_complete, question_violation with q; [done|].
    right; left. apply blank_option_at with opts o; [done..|].
    by apply trim_whitespace.
  - exists (mkForm (js " ")
              [mkQuestion (js " ") input None None (Some (js "a")) None]).
    split_and!; [reflexivity..|].
    eexists. split; reflexivity.
Qed.

Lemma whitespace_title_accepted_blank_option_rejected_witness :
  ([Key "title"]
     ∉ error_paths
         (mkForm (js "  ")
            [mkQuestion (js " ") checkbox (Some [js "a"; js "  "]) None None
               (Some [true; false])]))
  ∧ ([Key "questions"; Idx 0; Key "text"]
       ∉ error_paths
           (mkForm (js "  ")
              [mkQuestion (js " ") checkbox (Some [js "a"; js "  "]) None None
                 (Some [true; false])]))
  ∧ ([Key "questions"; Idx 0; Key "options"; Idx 1]
       ∈ error_paths
           (mkForm (js "  ")
              [mkQuestion (js " ") checkbox (Some [js "a"; js "  "]) None None
                 (Some [true; false])])).
Proof.
  split; [|split].
  - apply (proj1 whitespace_title_accepted_blank_option_rejected).
    + discriminate.
    + repeat constructor.
  - apply (proj1 (proj2 whitespace_title_accepted_blank_option_rejected)
             _ 0
             (mkQuestion (js " ") checkbox (Some [js "a"; js "  "]) None None
                (Some [true; false]))).
    + reflexivity.
    + discriminate.
    + repeat constructor.
  - apply (proj1 (proj2 (proj2 whitespace_title_accepted_blank_option_rejected))
             _ 0 1
             (mkQuestion (js " ") checkbox (Some [js "a"; js "  "]) None None
                (Some [true; false]))
             [js "a"; js "  "] (js "  ")).
    + reflexivity.
    + reflexivity.
    + reflexivity.
    + reflexivity.
    + repeat constructor.
Defined.

(** * Further properties of the code *)

(** ** What is submitted *)

Lemma handleSubmit_Some (d : CreateQuizForm) (s : CreateQuizPayload) :
  handleSubmit d = Some s → validate d = [] ∧ s = onSubmit_payload d.
Proof.
  intros Hs. destruct (validate d) as [|i l] eqn:Hv.
  - rewrite (handleSubmit_valid d Hv) in Hs. by injection Hs as <-.
  - rewrite handleSubmit_invalid in Hs; [done|]. by rewrite Hv.
Qed.

Lemma flagged_nonempty {A} (l : list A) (flags : list bool) :
  length flags = length l → some_Boolean flags = true → flagged l flags ≠ [].
Proof.
  revert flags. induction l as [|x l IH]; intros [|b flags] Hlen Hsome;
    simpl in *; try done.
  destruct b; [done|]. apply IH; [lia|done].
Qed.

Lemma valid_question_payload_complete (q : Question) :
  questionSchema_issues q = [] → question_payload_complete (questionPayload q).
Proof.
  intros Hv. pose proof Hv as (Htext & _ & _ & Hty)%questionSchema_issues_nil.
  split; [by rewrite questionPayload_text|].
  destruct (type q) as [[]|] eqn:Ht; [| | |done].
  - by rewrite (questionPayload_boolean q Ht).
  - rewrite (questionPayload_input q Ht).
    by destruct (valid_input q Ht Hv) as (s & -> & Hs).
  - rewrite (questionPayload_checkbox q Ht).
    destruct (valid_checkbox q Ht Hv)
      as (opts & flags & -> & -> & Hne & _ & Hlen & Hsome).
    simpl. split.
    + by destruct opts.
    + apply flagged_nonempty; [by rewrite length_fmap|done].
Qed.

(** X1: whatever the form submits has a non-empty title, at least one
    question, as many questions as the draft, and in every question a
    non-empty text, a non-empty answer when it is an input question, and at
    least one option and one correct answer when it is a checkbox question. *)
Theorem submitted_payload_is_complete (d : CreateQuizForm) (s : CreateQuizPayload) :
  handleSubmit d = Some s →
  payload_title s = title d ∧ payload_title s ≠ []
  ∧ payload_questions s ≠ []
  ∧ length (payload_questions s) = length (questions d)
  ∧ Forall question_payload_complete (payload_questions s).
Proof.
  intros (Hv & ->)%handleSubmit_Some.
  apply validate_nil in Hv as (Ht & Hq & Hall).
  unfold onSubmit_payload. cbn [payload_title payload_questions].
  split_and!; [done|done| |by rewrite length_fmap|].
  - by destruct (questions d).
  - apply Forall_fmap. eapply Forall_impl; [exact Hall|].
    intros q Hq'. by apply valid_question_payload_complete.
Qed.

Lemma submitted_payload_is_complete_witness :
  payload_title
    (mkPayload (js "Colours")
       [CheckboxQuizQuestionPayload (js "Primary?") [js "Red"; js "Green"]
          [js "Red"]])
  = js "Colours"
  ∧ js "Colours" ≠ []
  ∧ [CheckboxQuizQuestionPayload (js "Primary?") [js "Red"; js "Green"]
       [js "Red"]] ≠ []
  ∧ 1 = 1
  ∧ Forall question_payload_complete
      [CheckboxQuizQuestionPayload (js "Primary?") [js "Red"; js "Green"]
         [js "Red"]].
Proof.
  apply (submitted_payload_is_complete
           (mkForm (js "Colours")
              [mkQuestion (js "Primary?") checkbox
                 (Some [js " Red"; js "Green "]) None None
                 (Some [true; false])])).
  reflexivity.
Defined.

(** ** Parsing twice *)

Lemma questionSchema_parse_idemp (q : Question) :
  (questionSchema_parse (questionSchema_parse q).2).2 = (questionSchema_parse q).2.
Proof.
  unfold questionSchema_parse.
  cbn [snd text type options correctBoolean correctInput correctCheckbox].
  destruct (options q) as [opts|]; cbn [fst snd]; [|done].
  unfold options_parse, string_trim_min1. cbn [snd]. f_equal. f_equal.
  rewrite <- list_fmap_compose. apply list_fmap_ext.
  intros ? o _. apply trim_idemp.
Qed.

Lemma parsed_question_valid (q : Question) :
  questionSchema_issues q = [] →
  questionSchema_issues (questionSchema_parse q).2 = [].
Proof.
  intros (Ht & Ho & Hr & Hty)%questionSchema_issues_nil.
  apply questionSchema_issues_nil. split_and!; [| | |done].
  - done.
  - intros opts' Hopts'. unfold questionSchema_parse in Hopts'.
    cbn [snd options] in Hopts'.
    destruct (options q) as [opts|] eqn:Hq; cbn [fst snd] in Hopts'; [|done].
    injection Hopts' as <-. unfold options_parse, string_trim_min1. cbn [snd].
    apply Forall_fmap. eapply Forall_impl; [by apply Ho|].
    intros o Hne. simpl. by rewrite trim_idemp.
  - by rewrite questionSchema_parse_idemp.
Qed.

(** X2: the data the schema hands over is a fixed point of parsing: parsed
    again it has no issue and comes out unchanged. *)
Theorem safeParse_idempotent (d d' : CreateQuizForm) :
  safeParse d = inr d' → safeParse d' = inr d'.
Proof.
  unfold safeParse. destruct (validate d) as [|i l] eqn:Hv; [|done].
  intros Heq. assert (Hd' : d' = (createQuizSchema_parse d).2) by congruence.
  subst d'. clear Heq. apply validate_nil in Hv as (Ht & Hq & Hall).
  assert (Hv' : validate (createQuizSchema_parse d).2 = []).
  { apply validate_nil. unfold createQuizSchema_parse, questions_parse.
    cbn [snd title questions]. split_and!; [done|by destruct (questions d)|].
    apply Forall_fmap. eapply Forall_impl; [exact Hall|].
    intros q Hq'. by apply parsed_question_valid. }
  rewrite Hv'. f_equal.
  unfold createQuizSchema_parse, questions_parse. cbn [snd title questions].
  f_equal. rewrite <- list_fmap_compose. apply list_fmap_ext.
  intros ? q _. apply questionSchema_parse_idemp.
Qed.

Lemma safeParse_idempotent_witness :
  safeParse
    (mkForm (js "T")
       [mkQuestion (js "Q") checkbox (Some [js "a"; js "b"]) None None
          (Some [true; false])])
  = inr (mkForm (js "T")
           [mkQuestion (js "Q") checkbox (Some [js "a"; js "b"]) None None
              (Some [true; false])]).
Proof.
  apply (safeParse_idempotent
           (mkForm (js "T")
              [mkQuestion (js "Q") checkbox (Some [js " a "; js "b "]) None None
                 (Some [true; false])])).
  reflexivity.
Defined.

(** ** A new question *)

(** X3: a question just added is reported by validation, for its empty
    text and for its blank expected answer, so the form does not submit until
    it is filled in. *)
Theorem added_question_is_invalid (d : CreateQuizForm) :
  [Key "questions"; Idx (length (questions d)); Key "text"]
    ∈ error_paths (addQuestion d)
  ∧ [Key "questions"; Idx (length (questions d)); Key "correctInput"]
      ∈ error_paths (addQuestion d)
  ∧ handleSubmit (addQuestion d) = None.
Proof.
  assert (Hlast : questions (addQuestion d) !! length (questions d)
                  = Some defaultQuestion).
  { unfold addQuestion. cbn [questions]. by apply list_lookup_middle. }
  assert (Htext : [Key "questions"; Idx (length (questions d)); Key "text"]
                    ∈ error_paths (addQuestion d)).
  { apply error_paths_complete, question_violation with defaultQuestion; [done|].
    left. by apply text_empty. }
  split_and!; [done| |].
  - apply error_paths_complete, question_violation with defaultQuestion; [done|].
    left. by apply input_blank.
  - apply handleSubmit_invalid. unfold error_paths in Htext.
    destruct (validate (addQuestion d)); [|done]. by apply elem_of_nil in Htext.
Qed.

(** ** The drafts an editing session reaches *)

Lemma question_add_option_well_formed (q : Question) :
  well_formed_question q → well_formed_question (question_add_option q).
Proof.
  intros (Ha & _ & _). split_and!.
  - by apply question_add_option_aligned.
  - simpl. by destruct (default [] (options q)).
  - simpl. by destruct (default [] (correctCheckbox q)).
Qed.

Lemma nonempty_or_undefined_not_empty {A} (l : list A) :
  nonempty_or_undefined l ≠ Some [].
Proof. by destruct l. Qed.

Lemma question_remove_option_well_formed (j : nat) (q : Question) :
  well_formed_question q → well_formed_question (question_remove_option j q).
Proof.
  intros (Ha & _ & _). split_and!.
  - by apply question_remove_option_aligned.
  - apply nonempty_or_undefined_not_empty.
  - apply nonempty_or_undefined_not_empty.
Qed.

Lemma question_change_type_well_formed (t : TypeValue) (q : Question) :
  well_formed_question q → well_formed_question (question_change_type t q).
Proof.
  intros Hq. destruct t as [[]|]; [by split_and!..| |done]. split_and!.
  - apply question_change_type_aligned.
  - simpl. by destruct (default [] (options q)).
  - simpl. by destruct (default [] (options q)).
Qed.

Lemma insert_well_formed {A B} (j : nat) (v : A) (l : option (list A))
    (k : option (list B)) :
  length (default [] l) = length (default [] k) → l ≠ Some [] →
  length (default [] (insert j v <$> l)) = length (default [] k)
  ∧ insert j v <$> l ≠ Some [].
Proof.
  destruct l as [l|]; simpl; [|done]. intros Hlen Hne.
  rewrite length_insert. split; [done|].
  intros [= Hl]. apply Hne. f_equal.
  apply (f_equal length) in Hl. rewrite length_insert in Hl.
  by destruct l.
Qed.

Lemma step_well_formed (d : CreateQuizForm) (a : Action) :
  Forall well_formed_question (questions d) →
  Forall well_formed_question (questions (step d a)).
Proof.
  intros Hd. destruct a as [|i|i t|i|i j|v|i v|i j v|i j v|i v|i v]; cbn [step].
  - unfold addQuestion. cbn [questions]. apply Forall_app. split; [done|].
    by repeat constructor.
  - unfold remove_question. destruct (length (questions d) =? 1); [done|].
    cbn [questions]. by apply Forall_delete.
  - rewrite change_type_questions. apply Forall_alter; [done|].
    intros q _. apply question_change_type_well_formed.
  - rewrite addOption_questions. apply Forall_alter; [done|].
    intros q _. apply question_add_option_well_formed.
  - rewrite removeOption_questions. apply Forall_alter; [done|].
    intros q _. apply question_remove_option_well_formed.
  - done.
  - unfold setValue_text. cbn [questions]. by apply Forall_alter.
  - unfold edit_option. cbn [questions]. apply Forall_alter; [done|].
    intros q _ (Ha & Ho & Hf). unfold well_formed_question, aligned.
    cbn [options correctCheckbox].
    destruct (insert_well_formed j v (options q) (correctCheckbox q) Ha Ho).
    by split_and!.
  - unfold edit_flag. cbn [questions]. apply Forall_alter; [done|].
    intros q _ (Ha & Ho & Hf). unfold well_formed_question, aligned.
    cbn [options correctCheckbox].
    destruct (insert_well_formed j v (correctCheckbox q) (options q)
                (eq_sym Ha) Hf).
    by split_and!.
  - unfold setValue_correctBoolean. cbn [questions]. by apply Forall_alter.
  - unfold setValue_correctInput. cbn [questions]. by apply Forall_alter.
Qed.

(** X4: in every draft an editing session reaches, whatever the actions
    (adding and removing questions and options, changing types, editing
    fields), every question has as many flags as options, and neither array
    is stored empty: an array without element is absent. *)
Theorem reachable_drafts_are_well_formed (d : CreateQuizForm) :
  reachable d → Forall well_formed_question (questions d).
Proof.
  induction 1 as [|d a _ IH].
  - by repeat constructor.
  - by apply step_well_formed.
Qed.

Lemma reachable_drafts_are_well_formed_witness :
  Forall well_formed_question
    (questions
       (step (step (step (step defaultValues (ChangeType 0 checkbox))
                      (AddOption 0))
                (EditFlag 0 1 true))
          (RemoveOption 0 0))).
Proof.
  apply reachable_drafts_are_well_formed.
  do 4 apply reachable_step. apply reachable_init.
Defined.

(** ** Undoing an addition *)

Lemma form_eq (d d' : CreateQuizForm) :
  title d = title d' → questions d = questions d' → d = d'.
Proof. destruct d, d'. simpl. by intros -> ->. Qed.

Lemma alter_fixed {A} (f : A → A) (l : list A) (i : nat) :
  (∀ x, l !! i = Some x → f x = x) → alter f i l = l.
Proof.
  intros Hf. rewrite <- (list_alter_id id l i) at 2 by done.
  by apply list_alter_ext.
Qed.

Lemma delete_last {A} (l : list A) (x : A) : delete (length l) (l ++ [x]) = l.
Proof. rewrite delete_middle. apply app_nil_r. Qed.

Lemma nonempty_or_undefined_default {A} (o : option (list A)) :
  o ≠ Some [] → nonempty_or_undefined (default [] o) = o.
Proof. by destruct o as [[|x l]|]. Qed.

(** X5: adding an option to a question whose options and flags have the
    same length, neither stored empty, and then removing the option just
    added gives back the draft. *)
Theorem remove_added_option (d : CreateQuizForm) (i : nat) (q : Question) :
  questions d !! i = Some q → well_formed_question q →
  removeOption i (length (default [] (options q))) (addOption i d) = d.
Proof.
  intros Hq (Ha & Ho & Hf). apply form_eq; [done|].
  rewrite removeOption_questions, addOption_questions, list_alter_alter_eq.
  apply alter_fixed. intros q' Hq'. rewrite Hq in Hq'. injection Hq' as <-.
  unfold question_remove_option, question_add_option. simpl.
  unfold aligned in Ha. rewrite delete_last, Ha, delete_last.
  rewrite !nonempty_or_undefined_default by done. by destruct q.
Qed.

Lemma remove_added_option_witness :
  removeOption 0 (length (default [] (Some [js "a"; js "b"])))
    (addOption 0
       (mkForm (js "T")
          [mkQuestion (js "Q") checkbox (Some [js "a"; js "b"]) None None
             (Some [true; false])]))
  = mkForm (js "T")
      [mkQuestion (js "Q") checkbox (Some [js "a"; js "b"]) None None
         (Some [true; false])].
Proof.
  apply (remove_added_option
           (mkForm (js "T")
              [mkQuestion (js "Q") checkbox (Some [js "a"; js "b"]) None None
                 (Some [true; false])])
           0
           (mkQuestion (js "Q") checkbox (Some [js "a"; js "b"]) None None
              (Some [true; false]))).
  - reflexivity.
  - split_and!; [reflexivity|discriminate|discriminate].
Defined.

(** X6: removing a question just added gives back the draft, provided the
    draft had a question already; with no question before, the added one is
    the only one and its Remove button does nothing. *)
Theorem remove_added_question (d : CreateQuizForm) :
  (questions d ≠ [] →
   remove_question (length (questions d)) (addQuestion d) = d)
  ∧ (questions d = [] →
     remove_question (length (questions d)) (addQuestion d) = addQuestion d).
Proof.
  split; intros Hq.
  - unfold remove_question, addQuestion. cbn [questions title].
    rewrite length_app. simpl.
    destruct (Nat.eqb_spec (length (questions d) + 1) 1) as [Hlen|_].
    + destruct (questions d); [done|simpl in Hlen; lia].
    + apply form_eq; [done|]. cbn [questions]. apply delete_last.
  - unfold remove_question, addQuestion. cbn [questions]. by rewrite Hq.
Qed.

Lemma remove_added_question_witness :
  remove_question (length (questions defaultValues)) (addQuestion defaultValues)
  = defaultValues
  ∧ remove_question (length (questions (mkForm (js "T") [])))
      (addQuestion (mkForm (js "T") []))
    = addQuestion (mkForm (js "T") []).
Proof.
  split.
  - apply (proj1 (remove_added_question defaultValues)). discriminate.
  - apply (proj2 (remove_added_question (mkForm (js "T") []))). reflexivity.
Defined.

(** X7: removing the only option of a checkbox question stores its options
    and its flags as absent, and validation then reports the question both
    for having no option and for its flags. *)
Theorem remove_only_option (d : CreateQuizForm) (i : nat) (q : Question)
    (o : jsstring) (b : bool) :
  questions d !! i = Some q → type q = checkbox →
  options q = Some [o] → correctCheckbox q = Some [b] →
  questions (removeOption i 0 d) !! i
  = Some (mkQuestion (text q) checkbox None (correctBoolean q)
            (correctInput q) None)
  ∧ [Key "questions"; Idx i; Key "options"] ∈ error_paths (removeOption i 0 d)
  ∧ [Key "questions"; Idx i; Key "correctCheckbox"]
      ∈ error_paths (removeOption i 0 d).
Proof.
  intros Hq Ht Ho Hf.
  assert (Hq' : questions (removeOption i 0 d) !! i
                = Some (mkQuestion (text q) checkbox None (correctBoolean q)
                          (correctInput q) None)).
  { rewrite removeOption_questions, list_lookup_alter_eq, Hq. simpl.
    unfold question_remove_option. by rewrite Ho, Hf, Ht. }
  split_and!; [done| |].
  - eapply error_paths_complete, question_violation; [exact Hq'|].
    left. by apply checkbox_no_option.
  - eapply error_paths_complete, question_violation; [exact Hq'|].
    left. by apply checkbox_no_true_flag.
Qed.

Lemma remove_only_option_witness :
  questions
    (removeOption 0 0
       (mkForm (js "T")
          [mkQuestion (js "Q") checkbox (Some [js "a"]) None None (Some [true])]))
    !! 0
  = Some (mkQuestion (js "Q") checkbox None None None None)
  ∧ [Key "questions"; Idx 0; Key "options"]
      ∈ error_paths
          (removeOption 0 0
             (mkForm (js "T")
                [mkQuestion (js "Q") checkbox (Some [js "a"]) None None
                   (Some [true])]))
  ∧ [Key "questions"; Idx 0; Key "correctCheckbox"]
      ∈ error_paths
          (removeOption 0 0
             (mkForm (js "T")
                [mkQuestion (js "Q") checkbox (Some [js "a"]) None None
                   (Some [true])])).
Proof.
  apply (remove_only_option
           (mkForm (js "T")
              [mkQuestion (js "Q") checkbox (Some [js "a"]) None None
                 (Some [true])])
           0
           (mkQuestion (js "Q") checkbox (Some [js "a"]) None None (Some [true]))
           (js "a") true); reflexivity.
Defined.

(** ** More on changing the type *)

Lemma change_type_title (i : nat) (t : TypeValue) (d : CreateQuizForm) :
  title (change_type i t d) = title d.
Proof. by destruct t as [[]|]. Qed.

Lemma question_change_type_idemp (t : TypeValue) (q : Question) :
  question_change_type t (question_change_type t q) = question_change_type t q.
Proof.
  destruct t as [[]|]; [done..| |done]. unfold question_change_type.
  cbn [text options correctCheckbox default id].
  set (opts := match default [] (options q) with
               | [] => [js ""]
               | o :: os => o :: os
               end).
  assert (Hopts : match opts with [] => [js ""] | o :: os => o :: os end = opts).
  { unfold opts. by destruct (default [] (options q)). }
  cbn [from_option]. rewrite Hopts. do 2 f_equal. apply imap_ext.
  intros idx o Hidx. by rewrite list_lookup_imap, Hidx.
Qed.

(** X8: choosing the same value of the type select twice, one of the three
    types or the entry "Select type", is the same as choosing it once: the
    second change finds the fields the first one set and keeps them. *)
Theorem change_type_idempotent (i : nat) (t : TypeValue) (d : CreateQuizForm) :
  change_type i t (change_type i t d) = change_type i t d.
Proof.
  apply form_eq.
  - by rewrite !change_type_title.
  - rewrite !change_type_questions, list_alter_alter_eq.
    apply list_alter_ext; [|done]. intros q _. apply question_change_type_idemp.
Qed.

(** X9: changing the type of a question, to one of the three types or to
    the entry "Select type", leaves the title, the number of questions and
    every other question as they are, and keeps the text of the question,
    whose type becomes the chosen value. *)
Theorem change_type_touches_one_question (i : nat) (t : TypeValue)
    (d : CreateQuizForm) :
  title (change_type i t d) = title d
  ∧ length (questions (change_type i t d)) = length (questions d)
  ∧ (∀ j, j ≠ i → questions (change_type i t d) !! j = questions d !! j)
  ∧ (∀ q, questions d !! i = Some q →
       ∃ q', questions (change_type i t d) !! i = Some q'
             ∧ text q' = text q ∧ type q' = t).
Proof.
  split_and!.
  - apply change_type_title.
  - by rewrite change_type_questions, length_alter.
  - intros j Hj. rewrite change_type_questions.
    by apply list_lookup_alter_ne.
  - intros q Hq. exists (question_change_type t q). split_and!.
    + by rewrite change_type_questions, list_lookup_alter_eq, Hq.
    + by destruct t as [[]|].
    + by destruct t as [[]|].
Qed.

Lemma change_type_touches_one_question_witness :
  title (change_type 1 boolean (addQuestion defaultValues))
  = title (addQuestion defaultValues)
  ∧ length (questions (change_type 1 boolean (addQuestion defaultValues)))
    = length (questions (addQuestion defaultValues))
  ∧ (∀ j, j ≠ 1 →
       questions (change_type 1 boolean (addQuestion defaultValues)) !! j
       = questions (addQuestion defaultValues) !! j)
  ∧ (∀ q, questions (addQuestion defaultValues) !! 1 = Some q →
       ∃ q', questions (change_type 1 boolean (addQuestion defaultValues)) !! 1
             = Some q'
             ∧ text q' = text q ∧ type q' = boolean).
Proof. apply (change_type_touches_one_question 1 boolean). Defined.

Lemma question_error_paths (d : CreateQuizForm) (i : nat) (q : Question) (p : Path) :
  questions d !! i = Some q →
  (Key "questions" :: Idx i :: p) ∈ error_paths d ↔
    listed_question_violation q p ∨ blank_option q p ∨ type_not_chosen q p.
Proof.
  intros Hq. split.
  - intros H%error_paths_sound. inversion H as [| |i' q' p' Hq' Hv]; subst.
    rewrite Hq in Hq'. by injection Hq' as <-.
  - intros Hv. by apply error_paths_complete, question_violation with q.
Qed.

(** X10: after a change to boolean the question needs nothing but a text:
    the only error validation can report for it is an empty text.  After a
    change to input the expected answer is always reported as missing.
    After a change to checkbox of a question that had no option and no flag,
    the seeded option is reported as empty and the flags as having no correct
    option. *)
Theorem validity_after_change_type (d : CreateQuizForm) (i : nat) (q : Question) :
  questions d !! i = Some q →
  (∀ p, (Key "questions" :: Idx i :: p) ∈ error_paths (change_type i boolean d)
        ↔ p = [Key "text"] ∧ text q = [])
  ∧ [Key "questions"; Idx i; Key "correctInput"]
      ∈ error_paths (change_type i input d)
  ∧ (default [] (options q) = [] → default [] (correctCheckbox q) = [] →
     [Key "questions"; Idx i; Key "options"; Idx 0]
       ∈ error_paths (change_type i checkbox d)
     ∧ [Key "questions"; Idx i; Key "correctCheckbox"]
         ∈ error_paths (change_type i checkbox d)).
Proof.
  intros Hq.
  assert (Hq' : ∀ t, questions (change_type i t d) !! i
                     = Some (question_change_type t q)).
  { intros t. by rewrite change_type_questions, list_lookup_alter_eq, Hq. }
  split_and!.
  - intros p. rewrite (question_error_paths _ i _ p (Hq' boolean)). split.
    + intros [Hv|[Hv|Hv]]; inversion Hv; try done.
    + intros [-> Ht]. left. by apply text_empty.
  - apply (question_error_paths _ i _ _ (Hq' input)). left.
    by apply input_blank.
  - intros Hnone Hnoflag. split.
    + apply (question_error_paths _ i _ _ (Hq' checkbox)). right; left.
      apply blank_option_at with [js ""] (js "").
      * unfold question_change_type. by rewrite Hnone.
      * done.
      * done.
    + apply (question_error_paths _ i _ _ (Hq' checkbox)). left.
      apply checkbox_no_true_flag; [done|].
      unfold question_change_type. by rewrite Hnone, Hnoflag.
Qed.

Lemma validity_after_change_type_witness :
  (∀ p, (Key "questions" :: Idx 0 :: p)
          ∈ error_paths (change_type 0 boolean defaultValues)
        ↔ p = [Key "text"] ∧ text defaultQuestion = [])
  ∧ [Key "questions"; Idx 0; Key "correctInput"]
      ∈ error_paths (change_type 0 input defaultValues)
  ∧ (default [] (options defaultQuestion) = [] →
     default [] (correctCheckbox defaultQuestion) = [] →
     [Key "questions"; Idx 0; Key "options"; Idx 0]
       ∈ error_paths (change_type 0 checkbox defaultValues)
     ∧ [Key "questions"; Idx 0; Key "correctCheckbox"]
         ∈ error_paths (change_type 0 checkbox defaultValues)).
Proof.
  apply (validity_after_change_type defaultValues 0 defaultQuestion).
  reflexivity.
Defined.

(** ** One issue per field *)

Lemma paths_under_eq (s : PathSegment) (l : list ZodIssue) :
  issue_path <$> (under s <$> l) = (s ::.) <$> (issue_path <$> l).
Proof. rewrite <- !list_fmap_compose. by apply list_fmap_ext. Qed.

Lemma NoDup_paths_under (s : PathSegment) (l : list ZodIssue) :
  NoDup (issue_path <$> l) → NoDup (issue_path <$> (under s <$> l)).
Proof.
  intros Hl. rewrite paths_under_eq. apply NoDup_fmap_2_strong; [|done].
  intros p p' _ _ Heq. by injection Heq.
Qed.

Lemma NoDup_paths_min1 message (s : jsstring) :
  NoDup (issue_path <$> string_min1 message s).
Proof.
  unfold string_min1. destruct (length s <? 1); simpl.
  - apply NoDup_singleton.
  - apply NoDup_nil_2.
Qed.

Lemma paths_join_imap_from {A} (f : A → list ZodIssue) (l : list A) (k : nat)
    (p : Path) :
  p ∈ issue_path <$> mjoin (imap (λ i x, under (Idx (k + i)) <$> f x) l) →
  ∃ i p', p = Idx (k + i) :: p'.
Proof.
  intros (iss & -> & (l' & Hiss & Hl')%list_elem_of_join)%list_elem_of_fmap.
  apply elem_of_lookup_imap in Hl' as (i & x & -> & _).
  apply list_elem_of_fmap in Hiss as (iss' & -> & _). by exists i, (issue_path iss').
Qed.

Lemma NoDup_paths_join_imap {A} (f : A → list ZodIssue) (l : list A) (k : nat) :
  (∀ x, NoDup (issue_path <$> f x)) →
  NoDup (issue_path <$> mjoin (imap (λ i x, under (Idx (k + i)) <$> f x) l)).
Proof.
  intros Hf. revert k. induction l as [|x l IH]; intros k; simpl.
  { apply NoDup_nil_2. }
  rewrite (imap_ext _ (λ i y, under (Idx (S k + i)) <$> f y) l).
  2:{ intros i y _. simpl. by rewrite Nat.add_succ_r. }
  rewrite fmap_app. apply NoDup_app. split_and!.
  - by apply NoDup_paths_under.
  - intros p (p' & _ & ->)%paths_under Hp.
    apply paths_join_imap_from in Hp as (i & p'' & Hp). injection Hp. lia.
  - apply IH.
Qed.

Lemma NoDup_paths_superRefine (q : Question) :
  NoDup (issue_path <$> superRefine q).
Proof.
  unfold superRefine.
  destruct (type q), (correctBoolean q), (correctInput q) as [[|c s]|],
    (options q) as [[|o os]|], (correctCheckbox q) as [flags|]; simpl;
    repeat match goal with
           | |- context [if ?b then _ else _] => destruct b; simpl
           end;
    repeat (apply NoDup_cons_2;
            [intros Hin;
             repeat (apply elem_of_cons in Hin as [Hin|Hin]; [discriminate|]);
             by apply elem_of_nil in Hin|]);
    apply NoDup_nil_2.
Qed.

Lemma NoDup_paths_options (opts : list jsstring) :
  NoDup (issue_path <$> (options_parse opts).1).
Proof.
  unfold options_parse, string_trim_min1. cbn [fst].
  apply (NoDup_paths_join_imap
           (λ o, string_min1 "Option cannot be empty" (trim o)) opts 0).
  intros o. apply NoDup_paths_min1.
Qed.

Lemma NoDup_paths_enum (v : TypeValue) :
  NoDup (issue_path <$> enum_questionTypes v).
Proof. destruct v; simpl; [apply NoDup_nil_2|apply NoDup_singleton]. Qed.

Lemma NoDup_paths_question (q : Question) :
  NoDup (issue_path <$> questionSchema_issues q).
Proof.
  rewrite questionSchema_issues_eq, !fmap_app.
  apply NoDup_app. split_and!.
  - apply NoDup_paths_under, NoDup_paths_min1.
  - intros p (p' & (_ & ->)%paths_min1 & ->)%paths_under.
    rewrite !elem_of_app, !paths_under, superRefine_paths.
    intros [(p'' & _ & ?)|[(p'' & _ & ?)
           |[(_ & _ & ?)|[(_ & _ & ?)|[(_ & _ & ?)|(_ & _ & ?)]]]]];
      discriminate.
  - apply NoDup_app. split_and!.
    + apply NoDup_paths_under, NoDup_paths_enum.
    + intros p (p' & (_ & ->)%paths_enum & ->)%paths_under.
      rewrite !elem_of_app, !paths_under, superRefine_paths.
      intros [(p'' & _ & ?)
             |[(_ & _ & ?)|[(_ & _ & ?)|[(_ & _ & ?)|(_ & _ & ?)]]]];
        discriminate.
    + apply NoDup_app. split_and!.
      * apply NoDup_paths_under. destruct (options q); [|apply NoDup_nil_2].
        apply NoDup_paths_options.
      * intros p (p' & Hp' & ->)%paths_under.
        assert (∃ j, p' = [Idx j]) as (j & ->).
        { destruct (options q); [|by apply elem_of_nil in Hp'].
          apply options_paths in Hp' as (j & o & _ & _ & ->). by exists j. }
        rewrite superRefine_paths.
        intros [(_ & _ & ?)|[(_ & _ & ?)|[(_ & _ & ?)|(_ & _ & ?)]]];
          discriminate.
      * apply NoDup_paths_superRefine.
Qed.

(** X11: validation never reports two issues at the same field path, so
    every message finds its field. *)
Theorem one_issue_per_path (d : CreateQuizForm) : NoDup (error_paths d).
Proof.
  unfold error_paths, validate, createQuizSchema_parse, questions_parse.
  cbn [fst]. rewrite fmap_app. apply NoDup_app. split_and!.
  - apply NoDup_paths_under, NoDup_paths_min1.
  - intros p (p' & _ & ->)%paths_under (p'' & _ & ?)%paths_under. discriminate.
  - apply NoDup_paths_under. rewrite fmap_app. apply NoDup_app. split_and!.
    + destruct (length (questions d) <? 1); simpl.
      * apply NoDup_singleton.
      * apply NoDup_nil_2.
    + intros p Hp Hp'.
      apply (paths_join_imap_from
               (λ q, (questionSchema_parse q).1) (questions d) 0)
        in Hp' as (i & p' & ->).
      destruct (length (questions d) <? 1); simpl in Hp.
      * by apply list_elem_of_singleton in Hp.
      * by apply elem_of_nil in Hp.
    + apply (NoDup_paths_join_imap
               (λ q, (questionSchema_parse q).1) (questions d) 0).
      apply NoDup_paths_question.
Qed.

(** ** The details page shows what was submitted *)

Lemma elem_of_flagged {A} (l : list A) (flags : list bool) (o : A) :
  o ∈ flagged l flags ↔ ∃ k, flags !! k = Some true ∧ l !! k = Some o.
Proof.
  revert flags. induction l as [|x l IH]; intros [|b flags]; simpl.
  - rewrite elem_of_nil. split; [done|]. by intros (k & ? & ?).
  - rewrite elem_of_nil. split; [done|]. by intros (k & ? & ?).
  - rewrite elem_of_nil. split; [done|]. by intros (k & ? & ?).
  - destruct b.
    + rewrite elem_of_cons, IH. split.
      * intros [->|(k & ? & ?)]; [by exists 0|by exists (S k)].
      * intros ([|k] & Hf & Hl); simpl in *; [left; congruence|right; eauto].
    + rewrite IH. split.
      * intros (k & ? & ?). by exists (S k).
      * intros ([|k] & Hf & Hl); simpl in *; [done|eauto].
Qed.

Lemma flagged_view {A} `{EqDecision A} (l : list A) (flags : list bool) :
  NoDup l → length flags = length l →
  (λ o, (o, bool_decide (o ∈ flagged l flags))) <$> l = zip l flags.
Proof.
  intros Hnd. revert flags.
  induction Hnd as [|x l Hx Hnd IH]; intros [|b flags] Hlen; simpl in *;
    try done.
  f_equal.
  - f_equal. destruct b.
    + apply bool_decide_eq_true. left.
    + apply bool_decide_eq_false. intros Hin. apply Hx.
      eapply elem_of_sublist; [exact Hin|apply flagged_sublist].
  - rewrite <- (IH flags) by lia. apply list_fmap_ext.
    intros i o Hi. f_equal. apply bool_decide_ext.
    destruct b; [|done]. rewrite elem_of_cons. split; [|by right].
    intros [->|?]; [|done]. exfalso. apply Hx. by eapply list_elem_of_lookup_2.
Qed.

(** X12: when a checkbox question is returned as it was submitted, the
    details page marks an option as correct exactly when some flagged option
    of the draft has the same trimmed text; if the trimmed options are all
    different and there are as many flags as options, the marks are the flags
    of the draft, option by option. *)
Theorem details_marks_flagged_options (q : Question) (question : Wire.Question) :
  type q = checkbox → stored_as (questionPayload q) question →
  let opts := trim <$> default [] (options q) in
  let flags := default [] (correctCheckbox q) in
  (∀ o, Details.isCorrect question o = true
        ↔ ∃ k, flags !! k = Some true ∧ opts !! k = Some o)
  ∧ (NoDup opts → aligned q →
     Details.answer_view question = Details.CheckboxView (zip opts flags)).
Proof.
  intros Ht (_ & Htype & Hopts & Hans). cbn zeta.
  rewrite (questionPayload_checkbox q Ht) in Htype, Hopts, Hans.
  simpl in Htype, Hopts, Hans. injection Htype as Htype. split.
  - intros o. unfold Details.isCorrect. rewrite Hans.
    rewrite bool_decide_eq_true. apply elem_of_flagged.
  - intros Hnd Ha. unfold Details.answer_view, Details.isCorrect.
    rewrite Htype, Hopts, Hans. simpl. f_equal.
    apply flagged_view; [done|]. unfold aligned in Ha.
    by rewrite length_fmap.
Qed.

Lemma details_marks_flagged_options_witness :
  let q := mkQuestion (js "Q") checkbox (Some [js "a "; js " a"; js "b"]) None
             None (Some [true; false; false]) in
  let question := Wire.mkQuestion 1 (js "Q") checkbox
                    (Some [js "a"; js "a"; js "b"])
                    (Some (Wire.a_array [js "a"])) in
  let opts := trim <$> default [] (options q) in
  let flags := default [] (correctCheckbox q) in
  (∀ o, Details.isCorrect question o = true
        ↔ ∃ k, flags !! k = Some true ∧ opts !! k = Some o)
  ∧ (NoDup opts → aligned q →
     Details.answer_view question = Details.CheckboxView (zip opts flags)).
Proof.
  apply (details_marks_flagged_options
           (mkQuestion (js "Q") checkbox (Some [js "a "; js " a"; js "b"]) None
              None (Some [true; false; false]))
           (Wire.mkQuestion 1 (js "Q") checkbox (Some [js "a"; js "a"; js "b"])
              (Some (Wire.a_array [js "a"]))));
    [reflexivity|by split_and!].
Defined.

(** X13: when a boolean or an input question that passed validation is
    returned as it was submitted, the details page shows its answer, True or
    False according to [correctBoolean], or the trimmed expected answer, and
    never the placeholder for a missing answer. *)
Theorem details_shows_submitted_answer (q : Question) (question : Wire.Question) :
  questionSchema_issues q = [] → stored_as (questionPayload q) question →
  (type q = boolean →
   Details.answer_view question
   = Details.BooleanView
       (if bool_decide (correctBoolean q = Some str_true)
        then js "True" else js "False"))
  ∧ (type q = input →
     ∃ s, correctInput q = Some s ∧ trim s ≠ []
          ∧ Details.answer_view question = Details.InputView (trim s)).
Proof.
  intros Hv (_ & Htype & _ & Hans). split; intros Ht.
  - rewrite (questionPayload_boolean q Ht) in Htype, Hans.
    injection Htype as Htype.
    unfold Details.answer_view, Details.boolean_answer. by rewrite Htype, Hans.
  - destruct (valid_input q Ht Hv) as (s & Hs & Hne). exists s.
    split_and!; [done..|].
    rewrite (questionPayload_input q Ht), Hs in Htype, Hans.
    injection Htype as Htype.
    unfold Details.answer_view, Details.input_answer.
    rewrite Htype, Hans. simpl. rewrite trim_idemp.
    by destruct (trim s).
Qed.

Lemma details_shows_submitted_answer_witness :
  (chosen input = boolean →
   Details.answer_view
     (Wire.mkQuestion 1 (js "Capital") input None (Some (Wire.a_string (js "Paris"))))
   = Details.BooleanView
       (if bool_decide (None = Some str_true) then js "True" else js "False"))
  ∧ (chosen input = input →
     ∃ s, Some (js " Paris ") = Some s ∧ trim s ≠ []
          ∧ Details.answer_view
              (Wire.mkQuestion 1 (js "Capital") input None
                 (Some (Wire.a_string (js "Paris"))))
            = Details.InputView (trim s)).
Proof.
  apply (details_shows_submitted_answer
           (mkQuestion (js "Capital") input None None (Some (js " Paris ")) None)
           (Wire.mkQuestion 1 (js "Capital") input None
              (Some (Wire.a_string (js "Paris")))));
    [reflexivity|by split_and!].
Defined.



(** ** Deleting from the list *)

Section Delete.
Context {HostError Body : Type}.
Variable API_URL : jsstring.
Variable show_id : Z → jsstring.
Variable fetch : Api.Request → HostError + Api.Response HostError Body.
Variable host_message : HostError → option string.

Lemma deleteQuiz_ok (id : Z) (res : Api.Response HostError Body) :
  fetch (Api.deleteQuiz_request API_URL show_id id) = inr res →
  Api.ok res = true →
  Api.deleteQuiz API_URL show_id fetch id = Api.Fulfilled ().
Proof. intros Hres Hok. unfold Api.deleteQuiz. rewrite Hres. simpl. by rewrite Hok. Qed.

Lemma handleDelete_ok (id : Z) (st : QuizzesList.State)
    (res : Api.Response HostError Body) :
  fetch (Api.deleteQuiz_request API_URL show_id id) = inr res →
  Api.ok res = true →
  QuizzesList.handleDelete API_URL show_id fetch host_message id st
  = QuizzesList.mkState
      (filter (λ quiz, Wire.id quiz ≠ id) (QuizzesList.quizzes st)) None None.
Proof.
  intros Hres Hok. unfold QuizzesList.handleDelete.
  by rewrite (deleteQuiz_ok id res Hres Hok).
Qed.

(** X15: [handleDelete] always ends with no quiz marked as being deleted.
    When the server answers [ok], every quiz with the id is gone from the
    list, the others stay in their order, and no error is shown; when it
    answers otherwise the list is unchanged and the error "Failed to delete
    quiz" is shown; when there is no answer the list is unchanged and the
    error is the message of what [fetch] rejected with. *)
Theorem handleDelete_outcome (id : Z) (st : QuizzesList.State) :
  let st' := QuizzesList.handleDelete API_URL show_id fetch host_message id st in
  QuizzesList.deletingId st' = None
  ∧ (∀ res, fetch (Api.deleteQuiz_request API_URL show_id id) = inr res →
       Api.ok res = true →
       QuizzesList.error st' = None
       ∧ (∀ quiz, quiz ∈ QuizzesList.quizzes st'
                  ↔ quiz ∈ QuizzesList.quizzes st ∧ Wire.id quiz ≠ id)
       ∧ QuizzesList.quizzes st' `sublist_of` QuizzesList.quizzes st)
  ∧ (∀ res, fetch (Api.deleteQuiz_request API_URL show_id id) = inr res →
       Api.ok res = false →
       QuizzesList.quizzes st' = QuizzesList.quizzes st
       ∧ QuizzesList.error st' = Some "Failed to delete quiz")
  ∧ (∀ e, fetch (Api.deleteQuiz_request API_URL show_id id) = inl e →
       QuizzesList.quizzes st' = QuizzesList.quizzes st
       ∧ QuizzesList.error st'
         = Some (default "Failed to delete quiz" (host_message e))).
Proof.
  cbn zeta. split_and!.
  - unfold QuizzesList.handleDelete, QuizzesList.handleDelete_settle.
    by destruct (Api.deleteQuiz API_URL show_id fetch id).
  - intros res Hres Hok. rewrite (handleDelete_ok id st res Hres Hok).
    cbn [QuizzesList.error QuizzesList.quizzes]. split_and!; [done| |].
    + intros quiz. rewrite list_elem_of_filter. tauto.
    + apply sublist_filter.
  - intros res Hres Hok.
    unfold QuizzesList.handleDelete, Api.deleteQuiz. rewrite Hres. simpl.
    by rewrite Hok.
  - intros e He.
    unfold QuizzesList.handleDelete, Api.deleteQuiz. by rewrite He.
Qed.

(** X16: deletions that the server accepts can be done in either order,
    and deleting the same id again changes nothing more. *)
Theorem handleDelete_commutes (id id' : Z) (st : QuizzesList.State)
    (res res' : Api.Response HostError Body) :
  fetch (Api.deleteQuiz_request API_URL show_id id) = inr res →
  Api.ok res = true →
  fetch (Api.deleteQuiz_request API_URL show_id id') = inr res' →
  Api.ok res' = true →
  QuizzesList.handleDelete API_URL show_id fetch host_message id
    (QuizzesList.handleDelete API_URL show_id fetch host_message id' st)
  = QuizzesList.handleDelete API_URL show_id fetch host_message id'
      (QuizzesList.handleDelete API_URL show_id fetch host_message id st)
  ∧ QuizzesList.handleDelete API_URL show_id fetch host_message id
      (QuizzesList.handleDelete API_URL show_id fetch host_message id st)
    = QuizzesList.handleDelete API_URL show_id fetch host_message id st.
Proof.
  intros Hres Hok Hres' Hok'.
  rewrite !(handleDelete_ok id _ res Hres Hok).
  rewrite !(handleDelete_ok id' _ res' Hres' Hok').
  cbn [QuizzesList.quizzes]. split; f_equal.
  - rewrite !list_filter_filter. apply list_filter_iff. intros quiz. tauto.
  - rewrite list_filter_filter. apply list_filter_iff. intros quiz. tauto.
Qed.
End Delete.

Lemma handleDelete_outcome_witness :
  let st := QuizzesList.mkState
              [Wire.mkQuiz 1 (js "A") None; Wire.mkQuiz 2 (js "B") None;
               Wire.mkQuiz 3 (js "C") None]
              None (Some "Failed to delete quiz") in
  QuizzesList.handleDelete (HostError:=unit) (Body:=unit)
    (js "http://localhost:3000") (λ _, js "2")
    (λ _, inr (Api.mkResponse true (inl ()))) (λ _, None) 2 st
  = QuizzesList.mkState
      [Wire.mkQuiz 1 (js "A") None; Wire.mkQuiz 3 (js "C") None] None None
  ∧ QuizzesList.quizzes
      (QuizzesList.handleDelete (HostError:=unit) (Body:=unit)
         (js "http://localhost:3000") (λ _, js "2") (λ _, inl ())
         (λ _, Some "Load failed") 2 st)
    = QuizzesList.quizzes st
  ∧ QuizzesList.error
      (QuizzesList.handleDelete (HostError:=unit) (Body:=unit)
         (js "http://localhost:3000") (λ _, js "2") (λ _, inl ())
         (λ _, Some "Load failed") 2 st)
    = Some "Load failed".
Proof.
  cbn zeta. split; [reflexivity|].
  apply (proj2 (proj2 (proj2 (handleDelete_outcome (HostError:=unit) (Body:=unit)
                                (js "http://localhost:3000") (λ _, js "2")
                                (λ _, inl ()) (λ _, Some "Load failed") 2
                                (QuizzesList.mkState
                                   [Wire.mkQuiz 1 (js "A") None;
                                    Wire.mkQuiz 2 (js "B") None;
                                    Wire.mkQuiz 3 (js "C") None]
                                   None (Some "Failed to delete quiz")))))
           ()).
  reflexivity.
Defined.

Lemma handleDelete_commutes_witness :
  let st := QuizzesList.mkState
              [Wire.mkQuiz 1 (js "A") None; Wire.mkQuiz 2 (js "B") None;
               Wire.mkQuiz 3 (js "C") None] None None in
  let del := QuizzesList.handleDelete (HostError:=unit) (Body:=unit)
               (js "http://localhost:3000") (λ _, js "n")
               (λ _, inr (Api.mkResponse true (inl ()))) (λ _, None) in
  del 1%Z (del 3%Z st) = del 3%Z (del 1%Z st)
  ∧ del 1%Z (del 1%Z st) = del 1%Z st.
Proof.
  cbn zeta.
  apply (handleDelete_commutes (HostError:=unit) (Body:=unit)
           (js "http://localhost:3000") (λ _, js "n")
           (λ _, inr (Api.mkResponse true (inl ()))) (λ _, None) 1%Z 3%Z _
           (Api.mkResponse true (inl ())) (Api.mkResponse true (inl ())));
    reflexivity.
Defined.

(** ** Loading the list *)

(** X17: the list page starts from the quizzes of the body exactly when
    the request is answered with an [ok] response whose body parses, and
    then nothing is logged; in every other case it starts from the empty
    list and the failure is logged. *)
Theorem list_page_quizzes {HostError : Type} (API_URL : jsstring)
    (fetch : Api.Request → HostError + Api.Response HostError (list Wire.Quiz)) :
  let served := QuizzesList.getServerSideProps API_URL fetch in
  (QuizzesList.console_error served = None
   ↔ ∃ res quizzes,
       fetch (Api.getQuizzes_request API_URL) = inr res
       ∧ Api.ok res = true ∧ Api.json res = inr quizzes
       ∧ QuizzesList.initialQuizzes served = quizzes)
  ∧ (QuizzesList.console_error served ≠ None →
     QuizzesList.initialQuizzes served = []).
Proof.
  cbn zeta. unfold QuizzesList.getServerSideProps, Api.getQuizzes.
  destruct (fetch (Api.getQuizzes_request API_URL)) as [e|res] eqn:Hres; simpl.
  { split; [|done]. split; [done|]. by intros (? & ? & ? & _). }
  destruct (Api.ok res) eqn:Hok; simpl.
  - destruct (Api.json res) as [e|quizzes] eqn:Hjson; simpl.
    + split; [|done]. split; [done|].
      intros (res' & quizzes & [= <-] & _ & Hjson' & _). congruence.
    + split; [|done]. split; [|done]. intros _. exists res, quizzes.
      by split_and!.
  - split; [|done]. split; [done|].
    intros (res' & quizzes & [= <-] & Hok' & _). congruence.
Qed.

Lemma list_page_quizzes_witness :
  QuizzesList.initialQuizzes
    (QuizzesList.getServerSideProps (HostError:=unit) (js "http://localhost:3000")
       (λ _, inr (Api.mkResponse false (inr [Wire.mkQuiz 1 (js "A") None]))))
  = [].
Proof.
  apply (proj2 (list_page_quizzes (HostError:=unit) (js "http://localhost:3000")
                  (λ _, inr (Api.mkResponse false
                               (inr [Wire.mkQuiz 1 (js "A") None]))))).
  discriminate.
Defined.

(** ** When the host fails *)

(** X18: when [fetch] rejects, each helper rejects with the same value,
    not with an [Error] of its own; and when the response is [ok] but its
    body does not parse, [getQuizzes], [getQuiz] and [createQuiz] reject with
    what [res.json()] rejected with, whereas [deleteQuiz], which does not
    read the body, succeeds. *)
Theorem helpers_pass_host_failures_on {HostError Body Id : Type}
    (API_URL : jsstring) (show_id : Id → jsstring)
    (JSON_stringify : CreateQuizPayload → jsstring)
    (fetch : Api.Request → HostError + Api.Response HostError Body) :
  (∀ e, fetch (Api.getQuizzes_request API_URL) = inl e →
        Api.getQuizzes API_URL fetch = Api.Rejected (Api.Host e))
  ∧ (∀ id e, fetch (Api.getQuiz_request API_URL show_id id) = inl e →
        Api.getQuiz API_URL show_id fetch id = Api.Rejected (Api.Host e))
  ∧ (∀ data e,
        fetch (Api.createQuiz_request API_URL JSON_stringify data) = inl e →
        Api.createQuiz API_URL JSON_stringify fetch data
        = Api.Rejected (Api.Host e))
  ∧ (∀ id e, fetch (Api.deleteQuiz_request API_URL show_id id) = inl e →
        Api.deleteQuiz API_URL show_id fetch id = Api.Rejected (Api.Host e))
  ∧ (∀ res e, fetch (Api.getQuizzes_request API_URL) = inr res →
        Api.ok res = true → Api.json res = inl e →
        Api.getQuizzes API_URL fetch = Api.Rejected (Api.Host e))
  ∧ (∀ id res e, fetch (Api.getQuiz_request API_URL show_id id) = inr res →
        Api.ok res = true → Api.json res = inl e →
        Api.getQuiz API_URL show_id fetch id = Api.Rejected (Api.Host e))
  ∧ (∀ data res e,
        fetch (Api.createQuiz_request API_URL JSON_stringify data) = inr res →
        Api.ok res = true → Api.json res = inl e →
        Api.createQuiz API_URL JSON_stringify fetch data
        = Api.Rejected (Api.Host e))
  ∧ (∀ id res e, fetch (Api.deleteQuiz_request API_URL show_id id) = inr res →
        Api.ok res = true → Api.json res = inl e →
        Api.deleteQuiz API_URL show_id fetch id = Api.Fulfilled ()).
Proof.
  unfold Api.getQuizzes, Api.getQuiz, Api.createQuiz, Api.deleteQuiz.
  split_and!.
  - by intros e ->.
  - by intros id e ->.
  - by intros data e ->.
  - by intros id e ->.
  - intros res e -> Hok Hjson. simpl. by rewrite Hok, Hjson.
  - intros id res e -> Hok Hjson. simpl. by rewrite Hok, Hjson.
  - intros data res e -> Hok Hjson. simpl. by rewrite Hok, Hjson.
  - intros id res e -> Hok Hjson. simpl. by rewrite Hok.
Qed.

Lemma helpers_pass_host_failures_on_witness :
  Api.getQuiz (HostError:=nat) (Body:=unit) (Id:=nat)
    (js "http://localhost:3000") (λ _, js "4") (λ _, inl 7) 4
  = Api.Rejected (Api.Host 7)
  ∧ Api.deleteQuiz (HostError:=nat) (Body:=unit) (Id:=nat)
      (js "http://localhost:3000") (λ _, js "4")
      (λ _, inr (Api.mkResponse true (inl 9))) 4
    = Api.Fulfilled ().
Proof.
  split.
  - apply (proj1 (proj2 (helpers_pass_host_failures_on (HostError:=nat)
                           (Body:=unit) (Id:=nat) (js "http://localhost:3000")
                           (λ _, js "4") (λ _, []) (λ _, inl 7)))).
    reflexivity.
  - destruct (helpers_pass_host_failures_on (HostError:=nat) (Body:=unit)
                (Id:=nat) (js "http://localhost:3000") (λ _, js "4") (λ _, [])
                (λ _, inr (Api.mkResponse true (inl 9))))
      as (_ & _ & _ & _ & _ & _ & _ & Hdelete).
    apply (Hdelete 4 (Api.mkResponse true (inl 9)) 9); reflexivity.
Defined.

(** ** Submitting the form *)

Section SubmitOutcome.
Context {HostError Body : Type}.
Variable API_URL : jsstring.
Variable JSON_stringify : CreateQuizPayload → jsstring.
Variable fetch : Api.Request → HostError + Api.Response HostError Body.
Variable host_message : HostError → option string.

Lemma submit_valid (values : CreateQuizForm) (st : CreatePage.State) :
  validate values = [] →
  CreatePage.submit API_URL JSON_stringify fetch host_message values st
  = CreatePage.onSubmit API_URL JSON_stringify fetch host_message values st.
Proof.
  intros Hv. unfold CreatePage.submit, safeParse. rewrite Hv.
  unfold CreatePage.onSubmit. by rewrite onSubmit_payload_parsed.
Qed.

(** X19: submitting a draft that validation rejects changes nothing on the
    page, whatever the server would answer.  Submitting one that passes
    sends the payload of the draft: on an [ok] response whose body parses the
    page goes to [/quizzes] with no error; on a response that is not [ok] it
    stays and shows "Failed to create quiz"; and on an [ok] response whose
    body does not parse it also stays and shows an error, the message of
    what [res.json()] rejected with. *)
Theorem submit_outcome (values : CreateQuizForm) (st : CreatePage.State) :
  let st' := CreatePage.submit API_URL JSON_stringify fetch host_message
               values st in
  let request := Api.createQuiz_request API_URL JSON_stringify
                   (onSubmit_payload values) in
  (validate values ≠ [] → st' = st)
  ∧ (validate values = [] → ∀ res b,
       fetch request = inr res → Api.ok res = true → Api.json res = inr b →
       st' = CreatePage.mkState None (CreatePage.pushed st ++ [js "/quizzes"]))
  ∧ (validate values = [] → ∀ res,
       fetch request = inr res → Api.ok res = false →
       st' = CreatePage.mkState (Some "Failed to create quiz")
               (CreatePage.pushed st))
  ∧ (validate values = [] → ∀ res e,
       fetch request = inr res → Api.ok res = true → Api.json res = inl e →
       st' = CreatePage.mkState
               (Some (default "Failed to create quiz" (host_message e)))
               (CreatePage.pushed st)).
Proof.
  cbn zeta. split_and!.
  - intros Hv. unfold CreatePage.submit, safeParse.
    by destruct (validate values).
  - intros Hv res b Hres Hok Hjson. rewrite (submit_valid values st Hv).
    unfold CreatePage.onSubmit, Api.createQuiz. rewrite Hres. simpl.
    by rewrite Hok, Hjson.
  - intros Hv res Hres Hok. rewrite (submit_valid values st Hv).
    unfold CreatePage.onSubmit, Api.createQuiz. rewrite Hres. simpl.
    by rewrite Hok.
  - intros Hv res e Hres Hok Hjson. rewrite (submit_valid values st Hv).
    unfold CreatePage.onSubmit, Api.createQuiz. rewrite Hres. simpl.
    by rewrite Hok, Hjson.
Qed.
End SubmitOutcome.

Lemma submit_outcome_witness :
  CreatePage.submit (HostError:=unit) (Body:=unit) (js "http://localhost:3000")
    (λ _, js "{}") (λ _, inr (Api.mkResponse true (inr ()))) (λ _, None)
    defaultValues (CreatePage.mkState (Some "Failed to create quiz") [])
  = CreatePage.mkState (Some "Failed to create quiz") []
  ∧ CreatePage.submit (HostError:=unit) (Body:=unit) (js "http://localhost:3000")
      (λ _, js "{}") (λ _, inr (Api.mkResponse true (inr ()))) (λ _, None)
      (mkForm (js "T")
         [mkQuestion (js "Q") input None None (Some (js "a")) None])
      (CreatePage.mkState (Some "Failed to create quiz") [])
    = CreatePage.mkState None [js "/quizzes"].
Proof.
  split.
  - apply (proj1 (submit_outcome (HostError:=unit) (Body:=unit)
                    (js "http://localhost:3000") (λ _, js "{}")
                    (λ _, inr (Api.mkResponse true (inr ()))) (λ _, None)
                    defaultValues
                    (CreatePage.mkState (Some "Failed to create quiz") []))).
    discriminate.
  - apply (proj1 (proj2 (submit_outcome (HostError:=unit) (Body:=unit)
                           (js "http://localhost:3000") (λ _, js "{}")
                           (λ _, inr (Api.mkResponse true (inr ()))) (λ _, None)
                           (mkForm (js "T")
                              [mkQuestion (js "Q") input None None
                                 (Some (js "a")) None])
                           (CreatePage.mkState (Some "Failed to create quiz") [])))
             eq_refl (Api.mkResponse true (inr ())) ()); reflexivity.
Defined.

(** ** More on options *)

(** X20: an option just added is reported by validation as empty, so the
    form does not submit until it is filled in or removed. *)
Theorem added_option_is_invalid (d : CreateQuizForm) (i : nat) (q : Question) :
  questions d !! i = Some q →
  [Key "questions"; Idx i; Key "options";
   Idx (length (default [] (options q)))] ∈ error_paths (addOption i d)
  ∧ handleSubmit (addOption i d) = None.
Proof.
  intros Hq.
  assert (Hin : [Key "questions"; Idx i; Key "options";
                 Idx (length (default [] (options q)))]
                  ∈ error_paths (addOption i d)).
  { apply error_paths_complete,
      question_violation with (question_add_option q).
    - by rewrite addOption_questions, list_lookup_alter_eq, Hq.
    - right; left. eapply blank_option_at with (o := js ""); [done| |done].
      by apply list_lookup_middle. }
  split; [done|]. apply handleSubmit_invalid. unfold error_paths in Hin.
  destruct (validate (addOption i d)); [|done]. by apply elem_of_nil in Hin.
Qed.

Lemma added_option_is_invalid_witness :
  [Key "questions"; Idx 0; Key "options";
   Idx (length (default [] (Some [js "a"])))]
    ∈ error_paths
        (addOption 0
           (mkForm (js "T")
              [mkQuestion (js "Q") checkbox (Some [js "a"]) None None
                 (Some [true])]))
  ∧ handleSubmit
      (addOption 0
         (mkForm (js "T")
            [mkQuestion (js "Q") checkbox (Some [js "a"]) None None
               (Some [true])]))
    = None.
Proof.
  apply (added_option_is_invalid
           (mkForm (js "T")
              [mkQuestion (js "Q") checkbox (Some [js "a"]) None None
                 (Some [true])])
           0
           (mkQuestion (js "Q") checkbox (Some [js "a"]) None None (Some [true]))).
  reflexivity.
Defined.

Lemma delete_beyond {A} (l : list A) (j : nat) : length l ≤ j → delete j l = l.
Proof.
  revert j. induction l as [|x l IH]; intros [|j] Hj; simpl in *; try done; try lia.
  f_equal. apply IH. lia.
Qed.

(** X21: removing an option at an index where the question has none leaves
    the draft as it is, when the options and flags of the question have the
    same length and neither is stored empty. *)
Theorem remove_missing_option (d : CreateQuizForm) (i j : nat) (q : Question) :
  questions d !! i = Some q → well_formed_question q →
  length (default [] (options q)) ≤ j →
  removeOption i j d = d.
Proof.
  intros Hq (Ha & Ho & Hf) Hj. apply form_eq; [done|].
  rewrite removeOption_questions. apply alter_fixed.
  intros q' Hq'. rewrite Hq in Hq'. injection Hq' as <-.
  unfold question_remove_option. unfold aligned in Ha.
  rewrite !delete_beyond by lia.
  rewrite !nonempty_or_undefined_default by done. by destruct q.
Qed.

Lemma remove_missing_option_witness :
  removeOption 0 5
    (mkForm (js "T")
       [mkQuestion (js "Q") checkbox (Some [js "a"]) None None (Some [true])])
  = mkForm (js "T")
      [mkQuestion (js "Q") checkbox (Some [js "a"]) None None (Some [true])].
Proof.
  apply (remove_missing_option
           (mkForm (js "T")
              [mkQuestion (js "Q") checkbox (Some [js "a"]) None None
                 (Some [true])])
           0 5
           (mkQuestion (js "Q") checkbox (Some [js "a"]) None None (Some [true]))).
  - reflexivity.
  - split_and!; [reflexivity|discriminate|discriminate].
  - simpl. lia.
Defined.
